(** * A shallow embedding of the mailer service

    The TypeScript sources embedded here are
      - [src/types/email.types.ts]      (message and result records),
      - [interfaces/IMailProvider.ts]   (the adapter interface),
      - [providers/NodemailerProvider.ts], [providers/SendGridProvider.ts],
      - [SimpleFactory.ts]              (the orchestrator [SimpleEmailService]).

    Conventions.
      - A method of a class [T] is a function
        [T -> Machine -> outcome A * T * Machine]: it receives the object
        ([this]) and the rest of the machine, and gives back a returned value
        or a thrown error together with the updated object and machine.  A
        [throw] keeps the mutations made before it, as in ECMAScript.
      - [await] is sequencing: one call runs at a time (no interleaving of
        concurrent calls on one service is modelled).  What is stated of
        several calls is stated of calls made one after the other, each
        settled before the next starts ([session]).
      - Integer-valued ECMAScript numbers (counters, millisecond clocks and
        their differences) are [Z]; IEEE doubles are exact on them below
        2^53.  The two derived ratios of the health report are exact
        rationals ([Q]) where the code computes doubles; what is stated of
        the comparison of the success rate with 95 is stated of counters
        on which the two agree ([attempts_in_range]).
      - Strings are [string], the bytes of the UTF-8 text.  The regular
        expression of the template loader is interpreted on ASCII: its
        [\s] and the line terminators its [.] stops at are the ASCII ones.
        What is stated of the text it finds is stated of ASCII files
        ([ascii_only]) or of files in which it cannot match.
      - The libraries the service calls (nodemailer, @sendgrid/mail, fs,
        handlebars, the clock) are the fields of a record [Collaborators];
        everything is stated for an arbitrary such record.
      - [sendBulkEmails] of the API adapter is not embedded: it spreads
        the duration of a batch over its messages by a division, which does
        not stay among the integers the metrics are modelled with. *)

From Stdlib Require Import ZArith QArith String Ascii List Lia.
From Stdlib Require Floats.SpecFloat.
From stdpp Require Import base option list strings gmap sorting pretty.
Import ListNotations.

#[local] Open Scope string_scope.
#[local] Open Scope Z_scope.

(** ** ECMAScript values *)

(** An [Error] object; only [message] is ever read by the service. *)
Record Error := mkError { message : string }.

(** The completion of a call: a returned value or a thrown error. *)
Inductive outcome (A : Type) : Type :=
| Ok (a : A)
| Throw (error : Error).
Arguments Ok {A} a.
Arguments Throw {A} error.

(** [x || d] for [x : string | undefined]: the empty string is falsy. *)
Definition or_string (x : option string) (d : string) : string :=
  match x with
  | Some s => if String.eqb s "" then d else s
  | None => d
  end.

(** Truthiness of [x : string | undefined]. *)
Definition truthy_string (x : option string) : bool :=
  match x with
  | Some s => negb (String.eqb s "")
  | None => false
  end.

(** Truthiness of [x : boolean | undefined]. *)
Definition truthy_bool (x : option bool) : bool :=
  match x with
  | Some b => b
  | None => false
  end.

(** [x || d] for a number: [0] is falsy. *)
Definition or_number (x d : Z) : Z := if x =? 0 then d else x.

(** A value spliced into a template literal: [undefined] prints as such. *)
Definition show_string (x : option string) : string :=
  match x with
  | Some s => s
  | None => "undefined"
  end.

Definition show_number (x : option Z) : string :=
  match x with
  | Some n => pretty n
  | None => "undefined"
  end.

(** [Array.prototype.join]. *)
Fixpoint join (sep : string) (l : list string) : string :=
  match l with
  | [] => ""
  | [x] => x
  | x :: rest => x +:+ sep +:+ join sep rest
  end.

(** [Array.prototype.sort(comparefn)].  The built-in is a stable sort
    (ECMAScript 2019); for a consistent comparator every conforming
    implementation returns the list computed here: an element moves behind
    another one only when the comparator is positive on the pair. *)
Section ArraySort.
Context {A : Type} (comparefn : A -> A -> Z).

Fixpoint sort_insert (x : A) (l : list A) : list A :=
    match l with
    | [] => [x]
    | y :: l' => if 0 <? comparefn x y then y :: sort_insert x l' else x :: l
    end.

Definition Array_sort (l : list A) : list A := foldr sort_insert [] l.
End ArraySort.

(** ** [src/types/email.types.ts] *)

Inductive EmailPriority := LOW | NORMAL | HIGH | CRITICAL.

Inductive DeliveryStatus :=
| PENDING | SENT | DELIVERED | FAILED | BOUNCED | COMPLAINED | UNSUBSCRIBED.

(** [string | string[]] *)
Inductive Recipients :=
| One (address : string)
| Many (addresses : list string).

(** [Buffer | string] *)
Inductive Content :=
| ContentString (s : string)
| ContentBuffer (bytes : list Byte.byte).

Module EmailAttachment.
Record t := mk {
    filename : string;
    content : option Content;
    path : option string;
    contentType : option string;
    cid : option string
}.
End EmailAttachment.

Module EmailOptions.
Record t := mk {
    to : Recipients;
    cc : option Recipients;
    bcc : option Recipients;
    subject : string;
    text : option string;
    html : option string;
    attachments : option (list EmailAttachment.t);
    replyTo : option string;
    headers : option (gmap string string);
    priority : option EmailPriority;
    tags : option (list string);
    metadata : option (gmap string string)
}.
End EmailOptions.

(** [Omit<EmailOptions, 'html' | 'text' | 'subject'>] *)
Module Envelope.
Record t := mk {
    to : Recipients;
    cc : option Recipients;
    bcc : option Recipients;
    attachments : option (list EmailAttachment.t);
    replyTo : option string;
    headers : option (gmap string string);
    priority : option EmailPriority;
    tags : option (list string);
    metadata : option (gmap string string)
}.
End Envelope.

Module EmailResult.
Record t := mk {
    success : bool;
    messageId : option string;
    response : option string;
    error : option string;
    duration : Z;
    provider : string;
    retryCount : option Z;
    deliveryStatus : option DeliveryStatus
}.
End EmailResult.

(** [Record<string, any>] handed to the template engine. *)
Abbreviation TemplateData := (gmap string string).

(** ** [SimpleFactory.ts]: the configuration *)

Module NodemailerSettings.
Record t := mk {
    enabled : option bool;
    priority : option Z;
    rateLimit : option Z;
    maxRetries : option Z;
    timeout : option Z;
    host : option string;
    port : option Z;
    secure : option bool;
    user : option string;
    password : option string;
    from : option string
}.
End NodemailerSettings.

Module SendGridSettings.
Record t := mk {
    enabled : option bool;
    priority : option Z;
    rateLimit : option Z;
    maxRetries : option Z;
    timeout : option Z;
    apiKey : option string;
    from : option string
}.
End SendGridSettings.

Module TemplateSettings.
Record t := mk {
    directory : option string;
    cacheEnabled : option bool;
    cacheTTL : option Z
}.
End TemplateSettings.

Module SimpleEmailConfig.
Record t := mk {
    serviceName : string;
    nodemailer : option NodemailerSettings.t;
    sendgrid : option SendGridSettings.t;
    templates : option TemplateSettings.t
}.
End SimpleEmailConfig.

(** ** What the service exchanges with its libraries *)

(** The options object [NodemailerProvider.initialize] hands to
    [nodemailer.createTransport]. *)
Module TransportOptions.
Record t := mk {
    host : option string;
    port : option Z;
    secure : bool;
    auth_user : option string;
    auth_pass : option string;
    pool : bool;
    maxConnections : Z;
    maxMessages : Z;
    rateLimit : Z;
    tls_rejectUnauthorized : bool
}.
End TransportOptions.

(** The [mailOptions] object of [NodemailerProvider.sendEmail]. *)
Module MailOptions.
Record t := mk {
    from : option string;
    to : string;
    cc : option string;
    bcc : option string;
    subject : string;
    text : option string;
    html : option string;
    attachments : option (list EmailAttachment.t);
    replyTo : option string;
    headers : option (gmap string string);
    priority : option string
}.
End MailOptions.

(** What [transporter.sendMail] resolves to. *)
Module SentMessageInfo.
Record t := mk {
    messageId : option string;
    response : option string
}.
End SentMessageInfo.

Module MailContent.
Record t := mk {
    type : string;
    value : string
}.
End MailContent.

Module MailAttachment.
Record t := mk {
    filename : string;
    content : string;
    type : option string;
    disposition : string;
    contentId : option string
}.
End MailAttachment.

(** The [mailData] object of [SendGridProvider.sendEmail], and the smaller
    object of its [verifyConnection]. *)
Module MailData.
Record t := mk {
    from : option string;
    to : option Recipients;
    cc : option Recipients;
    bcc : option Recipients;
    subject : string;
    content : option (list MailContent.t);
    text : option string;
    replyTo : option string;
    headers : option (gmap string string);
    customArgs : option (gmap string string);
    categories : option (list string);
    attachments : option (list MailAttachment.t)
}.
End MailData.

(** The first component of what [sgMail.send] resolves to. *)
Module ClientResponse.
Record t := mk {
    statusCode : Z;
    body : string;
    headers : gmap string string
}.
End ClientResponse.

(** The libraries and the runtime.  [world] is the state of everything
    outside the service (mail servers, the clock, the file system); a library
    call reads and advances it, and either returns or throws. *)
Record Collaborators := {
  world : Type;
  Transporter : Type;
  (* the clock: [Date.now()], [new Date()] *)
  Date_now : world -> Z * world;
  (* [process.env.NODE_ENV] *)
  NODE_ENV : option string;
  (* nodemailer *)
  createTransport : TransportOptions.t -> world -> outcome Transporter * world;
  sendMail : Transporter -> MailOptions.t -> world -> outcome SentMessageInfo.t * world;
  verify : Transporter -> world -> outcome unit * world;
  close : Transporter -> world -> world;
  (* @sendgrid/mail *)
  setApiKey : string -> world -> world;
  send : MailData.t -> world -> outcome ClientResponse.t * world;
  (* fs and handlebars: [compile source data] is [handlebars.compile(source)(data)] *)
  readFileSync : string -> world -> outcome string * world;
  compile : string -> TemplateData -> outcome string;
  (* [Buffer.prototype.toString('base64')] *)
  base64 : list Byte.byte -> string
}.

(** An invocation of an adapter method, as a test spy would record it. *)
Inductive Call :=
| CallNew (name : string)
| CallInitialize (name : string)
| CallSendEmail (name : string) (options : EmailOptions.t)
| CallVerifyConnection (name : string)
| CallGetHealthStatus (name : string)
| CallShutdown (name : string).

Inductive LogLevel := LogInfo | LogWarn | LogError.

(** The machine around an object: the outside world, the adapter calls made
    so far and the lines handed to the pino logger (the message argument; the
    further arguments are interpolation values and no message of the service
    has a placeholder for them). *)
Record Machine {E : Collaborators} := mkMachine {
  ext : world E;
  calls : list Call;
  logs : list (LogLevel * string)
}.
Arguments Machine E : clear implicits.
Arguments mkMachine {E} ext calls logs.

(** ** Methods: state and exceptions *)

Section Op.
Context {E : Collaborators}.

Definition Op (T A : Type) : Type := T -> Machine E -> outcome A * T * Machine E.

Definition ret {T A} (a : A) : Op T A := fun this m => (Ok a, this, m).

Definition throw {T A} (e : Error) : Op T A := fun this m => (Throw e, this, m).

Definition bind {T A B} (c : Op T A) (k : A -> Op T B) : Op T B :=
  fun this m =>
    match c this m with
    | (Ok a, this', m') => k a this' m'
    | (Throw e, this', m') => (Throw e, this', m')
    end.

(** [try { c } catch (error) { h error }] *)
Definition try_catch {T A} (c : Op T A) (h : Error -> Op T A) : Op T A :=
  fun this m =>
    match c this m with
    | (Ok a, this', m') => (Ok a, this', m')
    | (Throw e, this', m') => h e this' m'
    end.

(** Reading and assigning the fields of [this]. *)
Definition read {T A} (f : T -> A) : Op T A := fun this m => (Ok (f this), this, m).

Definition assign {T} (f : T -> T) : Op T unit := fun this m => (Ok tt, f this, m).

(** A library call that may throw, and one that cannot. *)
Definition library {T A} (f : world E -> outcome A * world E) : Op T A :=
  fun this m =>
    let '(r, w) := f (ext m) in
    (r, this, mkMachine w (calls m) (logs m)).

Definition library_total {T A} (f : world E -> A * world E) : Op T A :=
  fun this m =>
    let '(a, w) := f (ext m) in
    (Ok a, this, mkMachine w (calls m) (logs m)).

(** A value a library computes without touching the world. *)
Definition pure_library {T A} (r : outcome A) : Op T A := fun this m => (r, this, m).

Definition record_call {T} (c : Call) : Op T unit :=
  fun this m => (Ok tt, this, mkMachine (ext m) (calls m ++ [c]) (logs m)).

Definition log_line (level : LogLevel) (msg : string) (m : Machine E) : Machine E :=
  mkMachine (ext m) (calls m) (logs m ++ [(level, msg)]).

Definition logger {T} (level : LogLevel) (msg : string) : Op T unit :=
  fun this m => (Ok tt, this, log_line level msg m).

(** [await o.c()] for a local object [o], inside a method of [this]: the
    returned value comes with the updated object; a throw propagates. *)
Definition call {T U A} (o : U) (c : Op U A) : Op T (A * U) :=
  fun this m =>
    match c o m with
    | (Ok a, o', m') => (Ok (a, o'), this, m')
    | (Throw e, _, m') => (Throw e, this, m')
    end.

End Op.
Arguments Op E T A : clear implicits.

Declare Scope op_scope.
Delimit Scope op_scope with op.
Notation "x <- c ;; k" := (bind c (fun x => k))
  (at level 100, c at next level, right associativity) : op_scope.
Notation "c ;; k" := (bind c (fun _ => k))
  (at level 100, right associativity) : op_scope.
#[local] Open Scope op_scope.

(** ** [interfaces/IMailProvider.ts]: the health report *)

Module HealthMetrics.
Record t := mk {
    sentToday : Z;
    sentThisHour : Z;
    queueSize : Z
}.
End HealthMetrics.

Module ProviderHealthStatus.
Record t := mk {
    isHealthy : bool;
    lastSuccessfulSend : option Z;
    lastError : option string;
    errorCount : Z;
    successRate : Q;
    averageResponseTime : Q;
    metrics : HealthMetrics.t
}.
End ProviderHealthStatus.

(** The private [metrics] object both adapters carry; dates are the
    millisecond clock. *)
Module Metrics.
Record t := mk {
    sentToday : Z;
    sentThisHour : Z;
    errorCount : Z;
    successCount : Z;
    totalResponseTime : Z;
    lastSuccessfulSend : Z;
    lastError : string
}.

(** The object literal of the field initialiser, [created] being [new Date()]. *)
Definition initial (created : Z) : t :=
  mk 0 0 0 0 0 created EmptyString.

(** [successCount / (successCount + errorCount) * 100], or 0 before the
    first attempt. *)
Definition successRate (m : t) : Q :=
  if 0 <? successCount m + errorCount m
  then (inject_Z (successCount m) / inject_Z (successCount m + errorCount m) * 100)%Q
  else 0%Q.

(** [totalResponseTime / successCount], or 0 before the first success. *)
Definition averageResponseTime (m : t) : Q :=
  if 0 <? successCount m
  then (inject_Z (totalResponseTime m) / inject_Z (successCount m))%Q
  else 0%Q.
End Metrics.

(** [a > b] on ratios. *)
Definition Qgtb (a b : Q) : bool := negb (Qle_bool a b).

(** [Array.isArray(x) ? x.join(', ') : x] *)
Definition join_recipients (r : Recipients) : string :=
  match r with
  | One address => address
  | Many addresses => join ", " addresses
  end.

(** The [TypeError] of reading a property of [undefined]. *)
Definition TypeError_undefined (property : string) : Error :=
  mkError ("Cannot read properties of undefined (reading '" +:+ property +:+ "')").

(** [ProviderFeature] of [interfaces/IMailProvider.ts]. *)
Inductive ProviderFeature :=
| TEMPLATES | ATTACHMENTS | BULK_SEND | WEBHOOKS | ANALYTICS | SCHEDULING | A_B_TESTING.

#[export] Instance ProviderFeature_eq_dec : EqDecision ProviderFeature.
Proof. solve_decision. Defined.

(** ** [providers/NodemailerProvider.ts] *)

Module NodemailerProvider.

(** The object [SimpleEmailService.initialize] passes as [config: any]. *)
Module Config.
Record t := mk {
    host : option string;
    port : option Z;
    secure : option bool;
    user : option string;
    password : option string;
    from : option string
}.
End Config.

Section WithCollaborators.
Context {E : Collaborators}.

Record t := mk {
    transporter : option (Transporter E);
    config : option Config.t;
    metrics : Metrics.t
}.

Definition name : string := "nodemailer".
Definition priority : Z := 1.
Definition rateLimit : Z := 10.

Definition set_transporter (x : option (Transporter E)) (this : t) : t :=
  mk x (config this) (metrics this).
Definition set_config (x : option Config.t) (this : t) : t :=
  mk (transporter this) x (metrics this).
Definition set_metrics (x : Metrics.t) (this : t) : t :=
  mk (transporter this) (config this) x.

(** [new NodemailerProvider(logger)] *)
Definition new {T} : Op E T t :=
  record_call (CallNew name) ;;
  created <- library_total (Date_now E) ;;
  ret (mk None None (Metrics.initial created)).

(** The options literal of [initialize]. *)
Definition transportOptions (config : Config.t) : TransportOptions.t :=
  TransportOptions.mk
    (Config.host config)
    (Config.port config)
    (truthy_bool (Config.secure config))
    (Config.user config)
    (Config.password config)
    true 5 100 rateLimit
    (bool_decide (NODE_ENV E = Some "production")).

Definition initialize (config : Config.t) : Op E t unit :=
  record_call (CallInitialize name) ;;
  assign (set_config (Some config)) ;;
  transport <- library (createTransport E (transportOptions config)) ;;
  assign (set_transporter (Some transport)) ;;
  logger LogInfo ("Nodemailer provider initialized for "
                  +:+ show_string (Config.host config) +:+ ":"
                  +:+ show_number (Config.port config)).

Definition mapPriority (priority : option EmailPriority) : option string :=
  match priority with
  | None => None
  | Some LOW => Some "low"
  | Some NORMAL => Some "normal"
  | Some HIGH => Some "high"
  | Some CRITICAL => Some "high"
  end.

Definition updateMetrics (success : bool) (duration : Z) (error : option string)
  : Op E t unit :=
  if success then
    now <- library_total (Date_now E) ;;
    assign (fun this =>
      let m := metrics this in
      set_metrics
        (Metrics.mk (Metrics.sentToday m + 1)
                    (Metrics.sentThisHour m + 1)
                    (Metrics.errorCount m)
                    (Metrics.successCount m + 1)
                    (Metrics.totalResponseTime m + duration)
                    now
                    (Metrics.lastError m))
        this)
  else
    assign (fun this =>
      let m := metrics this in
      set_metrics
        (Metrics.mk (Metrics.sentToday m)
                    (Metrics.sentThisHour m)
                    (Metrics.errorCount m + 1)
                    (Metrics.successCount m)
                    (Metrics.totalResponseTime m)
                    (Metrics.lastSuccessfulSend m)
                    (or_string error "Unknown error"))
        this).

(** The [mailOptions] literal of [sendEmail], [from] being [this.config.from]. *)
Definition mailOptions (from : option string) (options : EmailOptions.t)
  : MailOptions.t :=
  MailOptions.mk
    from
    (join_recipients (EmailOptions.to options))
    (join_recipients <$> EmailOptions.cc options)
    (join_recipients <$> EmailOptions.bcc options)
    (EmailOptions.subject options)
    (EmailOptions.text options)
    (EmailOptions.html options)
    (EmailOptions.attachments options)
    (EmailOptions.replyTo options)
    (EmailOptions.headers options)
    (mapPriority (EmailOptions.priority options)).

Definition sendEmail (options : EmailOptions.t) : Op E t EmailResult.t :=
  record_call (CallSendEmail name options) ;;
  startTime <- library_total (Date_now E) ;;
  transporter <- read transporter ;;
  match transporter with
  | None => throw (mkError "Nodemailer provider not initialized")
  | Some transporter =>
    try_catch
      (config <- read config ;;
       from <- match config with
               | Some c => ret (Config.from c)
               | None => throw (TypeError_undefined "from")
               end ;;
       info <- library (sendMail E transporter (mailOptions from options)) ;;
       now <- library_total (Date_now E) ;;
       let duration := now - startTime in
       updateMetrics true duration None ;;
       ret (EmailResult.mk
              true
              (Some (or_string (SentMessageInfo.messageId info) EmptyString))
              (Some (or_string (SentMessageInfo.response info) EmptyString))
              None
              duration
              name
              None None))
      (fun error =>
       now <- library_total (Date_now E) ;;
       let duration := now - startTime in
       updateMetrics false duration (Some (message error)) ;;
       logger LogError "Nodemailer send failed" ;;
       ret (EmailResult.mk
              false None None
              (Some (message error))
              duration
              name
              None None))
  end.

Definition verifyConnection : Op E t bool :=
  record_call (CallVerifyConnection name) ;;
  transporter <- read transporter ;;
  match transporter with
  | None => ret false
  | Some transporter =>
    try_catch
      (library (verify E transporter) ;;
       logger LogInfo "Nodemailer connection verified successfully" ;;
       ret true)
      (fun error =>
       logger LogError "Nodemailer connection failed" ;;
       ret false)
  end.

Definition getHealthStatus : Op E t ProviderHealthStatus.t :=
  record_call (CallGetHealthStatus name) ;;
  m <- read metrics ;;
  let successRate := Metrics.successRate m in
  let averageResponseTime := Metrics.averageResponseTime m in
  connected <- verifyConnection ;;
  m <- read metrics ;;
  ret (ProviderHealthStatus.mk
         (connected && Qgtb successRate 95)
         (Some (Metrics.lastSuccessfulSend m))
         (Some (Metrics.lastError m))
         (Metrics.errorCount m)
         successRate
         averageResponseTime
         (HealthMetrics.mk (Metrics.sentToday m) (Metrics.sentThisHour m) 0)).

Definition shutdown : Op E t unit :=
  record_call (CallShutdown name) ;;
  transporter <- read transporter ;;
  match transporter with
  | Some transporter =>
    library_total (fun w => (tt, close E transporter w)) ;;
    logger LogInfo "Nodemailer provider shutdown completed"
  | None => ret tt
  end.

Definition supportsFeature (feature : ProviderFeature) : bool :=
  let supportedFeatures := [ATTACHMENTS; BULK_SEND] in
  bool_decide (feature ∈ supportedFeatures).

(** [delay(ms)]: a timer of the runtime; [setTimeout ms] is what becomes of
    the world while it runs. *)
Definition delay (setTimeout : Z -> world E -> world E) (ms : Z) : Op E t unit :=
  library_total (fun w => (tt, setTimeout ms w)).

(** The loop of [sendBulkEmails], [results] being the array as filled so
    far. *)
Fixpoint sendBulkEmails_loop (setTimeout : Z -> world E -> world E)
  (emails : list EmailOptions.t) (results : list EmailResult.t)
  : Op E t (list EmailResult.t) :=
  match emails with
  | [] => ret results
  | email :: emails =>
    results <-
      try_catch
        (result <- sendEmail email ;;
         let results := (results ++ [result])%list in
         (* Small delay to respect rate limits *)
         delay setTimeout 100 ;;
         ret results)
        (fun error =>
         ret (results ++ [EmailResult.mk
                            false None None
                            (Some (message error))
                            0
                            name
                            None None])%list) ;;
    sendBulkEmails_loop setTimeout emails results
  end.

Definition sendBulkEmails (setTimeout : Z -> world E -> world E)
  (emails : list EmailOptions.t) : Op E t (list EmailResult.t) :=
  sendBulkEmails_loop setTimeout emails [].

End WithCollaborators.
Arguments t E : clear implicits.
End NodemailerProvider.

(** ** [providers/SendGridProvider.ts] *)

Module SendGridProvider.

(** The object [SimpleEmailService.initialize] passes as [config: any]. *)
Module Config.
Record t := mk {
    apiKey : option string;
    from : option string
}.
End Config.

Record t := mk {
    config : option Config.t;
    isInitialized : bool;
    metrics : Metrics.t
}.

Definition name : string := "sendgrid".
Definition priority : Z := 2.
Definition rateLimit : Z := 100.

Definition set_config (x : option Config.t) (this : t) : t :=
  mk x (isInitialized this) (metrics this).
Definition set_isInitialized (x : bool) (this : t) : t :=
  mk (config this) x (metrics this).
Definition set_metrics (x : Metrics.t) (this : t) : t :=
  mk (config this) (isInitialized this) x.

Section WithCollaborators.
Context {E : Collaborators}.

(** [new SendGridProvider(logger)] *)
Definition new {T} : Op E T t :=
  record_call (CallNew name) ;;
  created <- library_total (Date_now E) ;;
  ret (mk None false (Metrics.initial created)).

Definition initialize (config : Config.t) : Op E t unit :=
  record_call (CallInitialize name) ;;
  assign (set_config (Some config)) ;;
  match Config.apiKey config with
  | Some apiKey =>
    if String.eqb apiKey EmptyString
    then throw (mkError "SendGrid API key is required")
    else
      library_total (fun w => (tt, setApiKey E apiKey w)) ;;
      assign (set_isInitialized true) ;;
      logger LogInfo "SendGrid provider initialized"
  | None => throw (mkError "SendGrid API key is required")
  end.

Definition updateMetrics (success : bool) (duration : Z) (error : option string)
  : Op E t unit :=
  if success then
    now <- library_total (Date_now E) ;;
    assign (fun this =>
      let m := metrics this in
      set_metrics
        (Metrics.mk (Metrics.sentToday m + 1)
                    (Metrics.sentThisHour m + 1)
                    (Metrics.errorCount m)
                    (Metrics.successCount m + 1)
                    (Metrics.totalResponseTime m + duration)
                    now
                    (Metrics.lastError m))
        this)
  else
    assign (fun this =>
      let m := metrics this in
      set_metrics
        (Metrics.mk (Metrics.sentToday m)
                    (Metrics.sentThisHour m)
                    (Metrics.errorCount m + 1)
                    (Metrics.successCount m)
                    (Metrics.totalResponseTime m)
                    (Metrics.lastSuccessfulSend m)
                    (or_string error "Unknown error"))
        this).

(** [att.content?.toString('base64') || ''] : a string is its own
    [toString], whatever the argument. *)
Definition attachment_content (content : option Content) : string :=
  or_string
    (match content with
     | Some (ContentString s) => Some s
     | Some (ContentBuffer bytes) => Some (base64 E bytes)
     | None => None
     end)
    EmptyString.

Definition mailAttachment (att : EmailAttachment.t) : MailAttachment.t :=
  MailAttachment.mk
    (EmailAttachment.filename att)
    (attachment_content (EmailAttachment.content att))
    (EmailAttachment.contentType att)
    "attachment"
    (EmailAttachment.cid att).

(** The [mailData] literal of [sendEmail], [from] being [this.config.from]. *)
Definition mailData (from : option string) (options : EmailOptions.t)
  : MailData.t :=
  MailData.mk
    from
    (Some (EmailOptions.to options))
    (EmailOptions.cc options)
    (EmailOptions.bcc options)
    (EmailOptions.subject options)
    (Some (if truthy_string (EmailOptions.html options)
           then [MailContent.mk "text/html"
                   (or_string (EmailOptions.html options) EmptyString)]
           else [MailContent.mk "text/plain"
                   (or_string (EmailOptions.text options) EmptyString)]))
    None
    (EmailOptions.replyTo options)
    (EmailOptions.headers options)
    (EmailOptions.metadata options)
    (EmailOptions.tags options)
    (map mailAttachment <$> EmailOptions.attachments options).

(** The object [verifyConnection] sends to the address it sends from. *)
Definition testMail (from : option string) : MailData.t :=
  MailData.mk
    from
    (One <$> from)
    None None
    "SendGrid Connection Test"
    None
    (Some "This is a connection test email")
    None None None None None.

Definition sendEmail (options : EmailOptions.t) : Op E t EmailResult.t :=
  record_call (CallSendEmail name options) ;;
  startTime <- library_total (Date_now E) ;;
  isInitialized <- read isInitialized ;;
  if negb isInitialized
  then throw (mkError "SendGrid provider not initialized")
  else
    try_catch
      (config <- read config ;;
       from <- match config with
               | Some c => ret (Config.from c)
               | None => throw (TypeError_undefined "from")
               end ;;
       response <- library (send E (mailData from options)) ;;
       now <- library_total (Date_now E) ;;
       let duration := now - startTime in
       updateMetrics true duration None ;;
       ret (EmailResult.mk
              true
              (ClientResponse.headers response !! "x-message-id")
              (Some (pretty (ClientResponse.statusCode response) +:+ ": "
                     +:+ ClientResponse.body response))
              None
              duration
              name
              None None))
      (fun error =>
       now <- library_total (Date_now E) ;;
       let duration := now - startTime in
       updateMetrics false duration (Some (message error)) ;;
       logger LogError "SendGrid send failed" ;;
       ret (EmailResult.mk
              false None None
              (Some (message error))
              duration
              name
              None None)).

Definition verifyConnection : Op E t bool :=
  record_call (CallVerifyConnection name) ;;
  isInitialized <- read isInitialized ;;
  if negb isInitialized
  then ret false
  else
    try_catch
      (config <- read config ;;
       from <- match config with
               | Some c => ret (Config.from c)
               | None => throw (TypeError_undefined "from")
               end ;;
       library (send E (testMail from)) ;;
       logger LogInfo "SendGrid connection verified successfully" ;;
       ret true)
      (fun error =>
       logger LogError "SendGrid connection failed" ;;
       ret false).

Definition getHealthStatus : Op E t ProviderHealthStatus.t :=
  record_call (CallGetHealthStatus name) ;;
  m <- read metrics ;;
  let successRate := Metrics.successRate m in
  let averageResponseTime := Metrics.averageResponseTime m in
  isInitialized <- read isInitialized ;;
  ret (ProviderHealthStatus.mk
         (isInitialized && Qgtb successRate 95)
         (Some (Metrics.lastSuccessfulSend m))
         (Some (Metrics.lastError m))
         (Metrics.errorCount m)
         successRate
         averageResponseTime
         (HealthMetrics.mk (Metrics.sentToday m) (Metrics.sentThisHour m) 0)).

Definition shutdown : Op E t unit :=
  record_call (CallShutdown name) ;;
  assign (set_isInitialized false) ;;
  logger LogInfo "SendGrid provider shutdown completed".

End WithCollaborators.

Definition supportsFeature (feature : ProviderFeature) : bool :=
  let supportedFeatures :=
    [TEMPLATES; ATTACHMENTS; BULK_SEND; WEBHOOKS; ANALYTICS; A_B_TESTING] in
  bool_decide (feature ∈ supportedFeatures).

End SendGridProvider.

(** ** [interfaces/IMailProvider.ts] *)

(** The interface, as far as the orchestrator uses it on the objects of its
    list.  ([initialize(config: any)] takes a differently shaped object per
    class and is called on the classes themselves.) *)
Module IMailProvider.
Class t {E : Collaborators} (P : Type) := {
  name : P -> string;
  priority : P -> Z;
  rateLimit : P -> Z;
  sendEmail : EmailOptions.t -> Op E P EmailResult.t;
  verifyConnection : Op E P bool;
  getHealthStatus : Op E P ProviderHealthStatus.t;
  shutdown : Op E P unit
}.
End IMailProvider.

#[export] Instance NodemailerProvider_IMailProvider {E : Collaborators}
  : IMailProvider.t (NodemailerProvider.t E) := {|
  IMailProvider.name := fun _ => NodemailerProvider.name;
  IMailProvider.priority := fun _ => NodemailerProvider.priority;
  IMailProvider.rateLimit := fun _ => NodemailerProvider.rateLimit;
  IMailProvider.sendEmail := NodemailerProvider.sendEmail;
  IMailProvider.verifyConnection := NodemailerProvider.verifyConnection;
  IMailProvider.getHealthStatus := NodemailerProvider.getHealthStatus;
  IMailProvider.shutdown := NodemailerProvider.shutdown
|}.

#[export] Instance SendGridProvider_IMailProvider {E : Collaborators}
  : IMailProvider.t (E:=E) SendGridProvider.t := {|
  IMailProvider.name := fun _ => SendGridProvider.name;
  IMailProvider.priority := fun _ => SendGridProvider.priority;
  IMailProvider.rateLimit := fun _ => SendGridProvider.rateLimit;
  IMailProvider.sendEmail := SendGridProvider.sendEmail;
  IMailProvider.verifyConnection := SendGridProvider.verifyConnection;
  IMailProvider.getHealthStatus := SendGridProvider.getHealthStatus;
  IMailProvider.shutdown := SendGridProvider.shutdown
|}.

(** An element of [providers: IMailProvider[]]: an object of one of the two
    classes the orchestrator instantiates. *)
Inductive Provider {E : Collaborators} :=
| Nodemailer (p : NodemailerProvider.t E)
| SendGrid (p : SendGridProvider.t).
Arguments Provider E : clear implicits.

(** Dynamic dispatch. *)
Definition dispatch {E : Collaborators} {A}
  (nodemailer : Op E (NodemailerProvider.t E) A)
  (sendgrid : Op E SendGridProvider.t A) : Op E (Provider E) A :=
  fun this m =>
    match this with
    | Nodemailer p => let '(r, p', m') := nodemailer p m in (r, Nodemailer p', m')
    | SendGrid p => let '(r, p', m') := sendgrid p m in (r, SendGrid p', m')
    end.

#[export] Instance Provider_IMailProvider {E : Collaborators}
  : IMailProvider.t (Provider E) := {|
  IMailProvider.name := fun this =>
    match this with
    | Nodemailer _ => NodemailerProvider.name
    | SendGrid _ => SendGridProvider.name
    end;
  IMailProvider.priority := fun this =>
    match this with
    | Nodemailer _ => NodemailerProvider.priority
    | SendGrid _ => SendGridProvider.priority
    end;
  IMailProvider.rateLimit := fun this =>
    match this with
    | Nodemailer _ => NodemailerProvider.rateLimit
    | SendGrid _ => SendGridProvider.rateLimit
    end;
  IMailProvider.sendEmail := fun options =>
    dispatch (NodemailerProvider.sendEmail options) (SendGridProvider.sendEmail options);
  IMailProvider.verifyConnection :=
    dispatch NodemailerProvider.verifyConnection SendGridProvider.verifyConnection;
  IMailProvider.getHealthStatus :=
    dispatch NodemailerProvider.getHealthStatus SendGridProvider.getHealthStatus;
  IMailProvider.shutdown :=
    dispatch NodemailerProvider.shutdown SendGridProvider.shutdown
|}.

(** ** The regular expression of the template loader

    [String.prototype.match] with a non-global pattern built from single
    characters, greedy stars of a character class and one capturing group
    [(c+?)]: the backtracking matcher of ECMAScript, specialised to that
    shape.  The result is the text of group 1 of the leftmost match. *)

Inductive CharClass :=
| Lit (c : ascii)     (* the character itself, compared under [/i] *)
| Space               (* [\s] *)
| AnyChar.            (* [.] *)

Inductive Node :=
| Char (c : CharClass)
| Star (c : CharClass)            (* [c*], greedy *)
| GroupPlusLazy (c : CharClass).  (* [(c+?)] *)

(** [Canonicalize] under [/i], on ASCII letters. *)
Definition upper (a : ascii) : ascii :=
  let n := nat_of_ascii a in
  if ((97 <=? n) && (n <=? 122))%nat then ascii_of_nat (n - 32) else a.

Definition is_space (a : ascii) : bool :=
  let n := nat_of_ascii a in
  ((n =? 32) || ((9 <=? n) && (n <=? 13)))%nat.

Definition is_line_terminator (a : ascii) : bool :=
  let n := nat_of_ascii a in
  ((n =? 10) || (n =? 13))%nat.

Definition class_matches (c : CharClass) (a : ascii) : bool :=
  match c with
  | Lit x => Ascii.eqb (upper x) (upper a)
  | Space => is_space a
  | AnyChar => negb (is_line_terminator a)
  end.

Fixpoint match_nodes (nodes : list Node) (group : string) (s : string)
  {struct nodes} : option string :=
  match nodes with
  | [] => Some group
  | Char c :: rest =>
    match s with
    | String a s' => if class_matches c a then match_nodes rest group s' else None
    | EmptyString => None
    end
  | Star c :: rest =>
    (fix star (s : string) : option string :=
       match s with
       | String a s' =>
         if class_matches c a
         then match star s' with
              | Some g => Some g
              | None => match_nodes rest group s
              end
         else match_nodes rest group s
       | EmptyString => match_nodes rest group s
       end) s
  | GroupPlusLazy c :: rest =>
    (fix plus (taken : string) (s : string) : option string :=
       match s with
       | String a s' =>
         if class_matches c a
         then let taken := taken +:+ String a EmptyString in
              match match_nodes rest taken s' with
              | Some g => Some g
              | None => plus taken s'
              end
         else None
       | EmptyString => None
       end) EmptyString s
  end.

(** The leftmost match. *)
Fixpoint String_match (s : string) (nodes : list Node) : option string :=
  match match_nodes nodes EmptyString s with
  | Some g => Some g
  | None =>
    match s with
    | String _ s' => String_match s' nodes
    | EmptyString => None
    end
  end.

Definition literal (s : string) : list Node :=
  map (fun a => Char (Lit a)) (list_ascii_of_string s).

(** [/<!--\s*SUBJECT:\s*(.+?)\s*-->/i] *)
Definition SUBJECT_pattern : list Node :=
  literal "<!--" ++ [Star Space] ++ literal "SUBJECT:" ++ [Star Space]
  ++ [GroupPlusLazy AnyChar] ++ [Star Space] ++ literal "-->".

(** ** [SimpleFactory.ts]: the orchestrator *)

Module SimpleEmailService.
Section WithCollaborators.
Context {E : Collaborators}.

Record t := mk {
    providers : list (Provider E);
    initialized : bool;
    config : SimpleEmailConfig.t
}.

Definition set_providers (x : list (Provider E)) (this : t) : t :=
  mk x (initialized this) (config this).
Definition set_initialized (x : bool) (this : t) : t :=
  mk (providers this) x (config this).

(** [new SimpleEmailService(config)] *)
Definition new (config : SimpleEmailConfig.t) : t := mk [] false config.

(** The comparator of [initialize]: [(b.priority || 1) - (a.priority || 1)]. *)
Definition by_priority {P} `{IMailProvider.t E P} (a b : P) : Z :=
  or_number (IMailProvider.priority b) 1 - or_number (IMailProvider.priority a) 1.

(** The object literals [initialize] builds from the configuration. *)
Definition nodemailer_config (nodemailer : NodemailerSettings.t)
  : NodemailerProvider.Config.t :=
  NodemailerProvider.Config.mk
    (NodemailerSettings.host nodemailer)
    (NodemailerSettings.port nodemailer)
    (NodemailerSettings.secure nodemailer)
    (NodemailerSettings.user nodemailer)
    (NodemailerSettings.password nodemailer)
    (NodemailerSettings.from nodemailer).

Definition sendgrid_config (sendgrid : SendGridSettings.t)
  : SendGridProvider.Config.t :=
  SendGridProvider.Config.mk
    (SendGridSettings.apiKey sendgrid)
    (SendGridSettings.from sendgrid).

(** [this.providers.push(provider)] *)
Definition push (provider : Provider E) : Op E t unit :=
  assign (fun this => set_providers (providers this ++ [provider]) this).

(** The block [// Initialize Nodemailer if configured] of [initialize]. *)
Definition initialize_nodemailer : Op E t unit :=
  config <- read config ;;
  match SimpleEmailConfig.nodemailer config with
  | Some nodemailer =>
    if truthy_bool (NodemailerSettings.enabled nodemailer) then
      try_catch
        (provider <- NodemailerProvider.new ;;
         r <- call provider (NodemailerProvider.initialize (nodemailer_config nodemailer)) ;;
         let provider := r.2 in
         (* Verify connection *)
         r <- call provider NodemailerProvider.verifyConnection ;;
         let isConnected := r.1 in
         let provider := r.2 in
         if isConnected then
           push (Nodemailer provider) ;;
           logger LogInfo "Nodemailer provider initialized"
         else
           logger LogWarn "Nodemailer connection failed")
        (fun error => logger LogError "Failed to initialize Nodemailer:")
    else ret tt
  | None => ret tt
  end.

(** The block [// Initialize SendGrid if configured] of [initialize]. *)
Definition initialize_sendgrid : Op E t unit :=
  config <- read config ;;
  match SimpleEmailConfig.sendgrid config with
  | Some sendgrid =>
    if truthy_bool (SendGridSettings.enabled sendgrid) then
      try_catch
        (provider <- SendGridProvider.new ;;
         r <- call provider (SendGridProvider.initialize (sendgrid_config sendgrid)) ;;
         let provider := r.2 in
         (* Verify connection *)
         r <- call provider SendGridProvider.verifyConnection ;;
         let isConnected := r.1 in
         let provider := r.2 in
         if isConnected then
           push (SendGrid provider) ;;
           logger LogInfo "SendGrid provider initialized"
         else
           logger LogWarn "SendGrid connection failed")
        (fun error => logger LogError "Failed to initialize SendGrid:")
    else ret tt
  | None => ret tt
  end.

Definition initialize : Op E t unit :=
  initialized <- read initialized ;;
  if initialized then ret tt else
  initialize_nodemailer ;;
  initialize_sendgrid ;;
  pushed <- read providers ;;
  if (length pushed =? 0)%nat
  then throw (mkError "No mail providers could be initialized")
  else
    (* Sort by priority (higher priority first) *)
    assign (fun this => set_providers (Array_sort by_priority (providers this)) this) ;;
    assign (set_initialized true) ;;
    sorted <- read providers ;;
    logger LogInfo ("Email service initialized with "
                    +:+ pretty (length sorted) +:+ " provider(s)").

(** The loop [for (const provider of this.providers)] of [sendEmail]: the
    result of the first provider that reports success, if any, with the
    provider objects as the attempts left them. *)
Fixpoint try_providers {P} `{IMailProvider.t E P}
  (options : EmailOptions.t) (providers : list P) (m : Machine E)
  : option EmailResult.t * list P * Machine E :=
  match providers with
  | [] => (None, [], m)
  | provider :: rest =>
    match IMailProvider.sendEmail options provider m with
    | (Ok result, provider, m) =>
      if EmailResult.success result
      then (Some result, provider :: rest, m)
      else
        let '(found, rest, m) := try_providers options rest m in
        (found, provider :: rest, m)
    | (Throw error, provider, m) =>
      let m := log_line LogWarn
                 ("Provider " +:+ IMailProvider.name provider +:+ " failed:") m in
      let '(found, rest, m) := try_providers options rest m in
      (found, provider :: rest, m)
    end
  end.

Definition sendEmail (options : EmailOptions.t) : Op E t EmailResult.t :=
  initialized <- read initialized ;;
  (if negb initialized then initialize else ret tt) ;;
  (* Try providers in priority order *)
  found <- (fun this m =>
              let '(found, attempted, m) := try_providers options (providers this) m in
              (Ok found, set_providers attempted this, m)) ;;
  match found with
  | Some result => ret result
  | None =>
    ret (EmailResult.mk
           false None None
           (Some "All mail providers failed")
           0
           "none"
           None None)
  end.

(** [templatePath] of [sendTemplateEmail]. *)
Definition templatePath (config : SimpleEmailConfig.t) (templateName : string)
  : string :=
  or_string (SimpleEmailConfig.templates config ≫= TemplateSettings.directory)
            "./templates"
  +:+ "/" +:+ templateName +:+ ".html".

(** The object literal [{...options, subject, html}]. *)
Definition with_subject_html (options : Envelope.t) (subject html : string)
  : EmailOptions.t :=
  EmailOptions.mk
    (Envelope.to options)
    (Envelope.cc options)
    (Envelope.bcc options)
    subject
    None
    (Some html)
    (Envelope.attachments options)
    (Envelope.replyTo options)
    (Envelope.headers options)
    (Envelope.priority options)
    (Envelope.tags options)
    (Envelope.metadata options).

(** The [try]/[catch] of [sendTemplateEmail] up to its [return]: either the
    message handed to [this.sendEmail], or the result of the [catch]. *)
Definition loadTemplate
  (templateName : string) (templateData : TemplateData) (options : Envelope.t)
  : Op E t (EmailOptions.t + EmailResult.t) :=
  config <- read config ;;
  (* Simple template loading (can be enhanced later) *)
  let templatePath := templatePath config templateName in
  try_catch
    (templateSource <- library (readFileSync E templatePath) ;;
     html <- pure_library (compile E templateSource templateData) ;;
     (* Extract subject from template (look for <!-- SUBJECT: ... --> comment) *)
     let subjectMatch := String_match templateSource SUBJECT_pattern in
     subject <- match subjectMatch with
                | Some group1 => pure_library (compile E group1 templateData)
                | None => ret "Email Notification"
                end ;;
     ret (inl (with_subject_html options subject html)))
    (fun error =>
     logger LogError ("Template loading failed for " +:+ templateName +:+ ":") ;;
     ret (inr (EmailResult.mk
                 false None None
                 (Some ("Template loading failed: " +:+ message error))
                 0
                 "template-loader"
                 None None))).

(** The promise of [this.sendEmail] is returned without [await]: what it
    throws is not caught by the [catch] of the template loading. *)
Definition sendTemplateEmail
  (templateName : string) (templateData : TemplateData) (options : Envelope.t)
  : Op E t EmailResult.t :=
  loaded <- loadTemplate templateName templateData options ;;
  match loaded with
  | inl message => sendEmail message
  | inr failure => ret failure
  end.

Definition getProviders (this : t) : list string :=
  map IMailProvider.name (providers this).

End WithCollaborators.
Arguments t E : clear implicits.

(** [createEmailService(config)] *)
Definition createEmailService {E : Collaborators} (config : SimpleEmailConfig.t)
  : Machine E -> outcome (t E) * Machine E :=
  fun m =>
    match initialize (new config) m with
    | (Ok _, service, m) => (Ok service, m)
    | (Throw error, _, m) => (Throw error, m)
    end.

End SimpleEmailService.

(** ** A template engine and a world for the examples

    [Handlebars] models handlebars on the templates whose only directives
    are double-brace variables: text is copied, [{{name}}] is replaced by the
    HTML-escaped entry of the data map (nothing when the entry is absent),
    an unclosed brace pair is a parse error.  Any other directive is outside
    the model and is refused. *)

Module Handlebars.

Definition escape_char (a : ascii) : string :=
  let n := nat_of_ascii a in
  if (n =? 38)%nat then "&amp;"
  else if (n =? 60)%nat then "&lt;"
  else if (n =? 62)%nat then "&gt;"
  else if (n =? 34)%nat then "&quot;"
  else if (n =? 39)%nat then "&#x27;"
  else if (n =? 96)%nat then "&#x60;"
  else if (n =? 61)%nat then "&#x3D;"
  else String a EmptyString.

Fixpoint escapeExpression (s : string) : string :=
  match s with
  | EmptyString => EmptyString
  | String a s' => escape_char a +:+ escapeExpression s'
  end.

Definition is_id_char (a : ascii) : bool :=
  let n := nat_of_ascii a in
  (((48 <=? n) && (n <=? 57)) || ((65 <=? n) && (n <=? 90))
   || ((97 <=? n) && (n <=? 122)) || (n =? 95))%nat.

Fixpoint trim_left (s : string) : string :=
  match s with
  | String a s' => if is_space a then trim_left s' else s
  | EmptyString => EmptyString
  end.

(** An identifier followed by blanks only. *)
Fixpoint identifier (s : string) : option string :=
  match s with
  | EmptyString => Some EmptyString
  | String a s' =>
    if is_id_char a then String a <$> identifier s'
    else if String.eqb (trim_left s) EmptyString then Some EmptyString
    else None
  end.

(** The text a mustache stands for. *)
Definition mustache (data : TemplateData) (expression : string) : outcome string :=
  match identifier (trim_left expression) with
  | Some EmptyString => Throw (mkError "Parse error")
  | Some name => Ok (escapeExpression (default EmptyString (data !! name)))
  | None => Throw (mkError "directive outside the modelled fragment")
  end.

Definition is_open (a : ascii) : bool := (nat_of_ascii a =? 123)%nat.
Definition is_close (a : ascii) : bool := (nat_of_ascii a =? 125)%nat.

(** [expression] is the text read so far of the mustache being scanned. *)
Fixpoint render (data : TemplateData) (s : string) (expression : option string)
  {struct s} : outcome string :=
  match s with
  | EmptyString =>
    match expression with
    | None => Ok EmptyString
    | Some _ => Throw (mkError "Parse error")
    end
  | String a s' =>
    match expression with
    | None =>
      match s' with
      | String b s'' =>
        if is_open a && is_open b
        then render data s'' (Some EmptyString)
        else match render data s' None with
             | Ok out => Ok (String a out)
             | Throw e => Throw e
             end
      | EmptyString => Ok (String a EmptyString)
      end
    | Some e =>
      match s' with
      | String b s'' =>
        if is_close a && is_close b
        then match mustache data e with
             | Ok v =>
               match render data s'' None with
               | Ok out => Ok (v +:+ out)
               | Throw x => Throw x
               end
             | Throw x => Throw x
             end
        else render data s' (Some (e +:+ String a EmptyString))
      | EmptyString => Throw (mkError "Parse error")
      end
    end
  end.

(** [handlebars.compile(source)(data)] *)
Definition compile (source : string) (data : TemplateData) : outcome string :=
  render data source None.

End Handlebars.

(** A scripted world: a clock that ticks at every reading, an SMTP server
    and an HTTP API that are up or down, the files on disk, and the messages
    the SMTP server accepted.  (No example carries an attachment: [base64]
    is left trivial.) *)
Module Lab.

Record World := mkWorld {
    clock : Z;
    smtp_reachable : bool;
    smtp_accepts : bool;
    sendgrid_accepts : bool;
    files : list (string * string);
    outbox : list MailOptions.t
}.

(** The text of the file at [path], if there is one. *)
Fixpoint file_at (path : string) (files : list (string * string)) : option string :=
  match files with
  | [] => None
  | (name, text) :: rest => if String.eqb name path then Some text else file_at path rest
  end.

Definition tick (w : World) : Z * World :=
  (clock w,
   mkWorld (clock w + 1) (smtp_reachable w) (smtp_accepts w) (sendgrid_accepts w)
           (files w) (outbox w)).

Definition deliver (transporter : TransportOptions.t) (mail : MailOptions.t) (w : World)
  : outcome SentMessageInfo.t * World :=
  if smtp_accepts w
  then (Ok (SentMessageInfo.mk (Some "<1@lab>") (Some "250 OK")),
        mkWorld (clock w) (smtp_reachable w) (smtp_accepts w) (sendgrid_accepts w)
                (files w) (outbox w ++ [mail]))
  else (Throw (mkError "connect ECONNREFUSED"), w).

Definition handshake (transporter : TransportOptions.t) (w : World)
  : outcome unit * World :=
  if smtp_reachable w then (Ok tt, w) else (Throw (mkError "connect ECONNREFUSED"), w).

Definition post (mail : MailData.t) (w : World) : outcome ClientResponse.t * World :=
  if sendgrid_accepts w
  then (Ok (ClientResponse.mk 202 EmptyString {[ "x-message-id" := "lab-1" ]}), w)
  else (Throw (mkError "Unauthorized"), w).

Definition read_file (path : string) (w : World) : outcome string * World :=
  match file_at path (files w) with
  | Some text => (Ok text, w)
  | None => (Throw (mkError ("ENOENT: no such file or directory, open '" +:+ path +:+ "'")), w)
  end.

Definition collaborators : Collaborators := {|
  world := World;
  Transporter := TransportOptions.t;
  Date_now := tick;
  NODE_ENV := None;
  createTransport := fun options w => (Ok options, w);
  sendMail := deliver;
  verify := handshake;
  close := fun _ w => w;
  setApiKey := fun _ w => w;
  send := post;
  readFileSync := read_file;
  compile := Handlebars.compile;
  base64 := fun _ => EmptyString
|}.

Definition machine (w : World) : Machine collaborators := mkMachine (w : world collaborators) [] [].

Definition LF : string := String (ascii_of_nat 10) EmptyString.

Definition envelope (to : string) : Envelope.t :=
  Envelope.mk (One to) None None None None None None None None.

Definition message (to subject html : string) : EmailOptions.t :=
  SimpleEmailService.with_subject_html (envelope to) subject html.

Definition hello : EmailOptions.t := message "ada@lab" "Welcome!" "<h1>Hello World</h1>".

(** Two template files: one with a subject directive, one without. *)
Definition welcome_html : string :=
  "<!-- SUBJECT: Hi {{name}} -->" +:+ LF +:+ "<p>{{name}}</p>".

Definition plain_html : string := "<p>{{name}}</p>".

Definition ada : TemplateData := {[ "name" := "Ada" ]}.

(** Everything is up; the two templates are on disk. *)
Definition all_up : World :=
  mkWorld 1000 true true true
    [("./templates/welcome.html", welcome_html); ("./templates/plain.html", plain_html)]
    [].

(** The HTTP API refuses every request. *)
Definition api_down : World :=
  mkWorld 2000 true true false (files all_up) [].

(** Nothing answers. *)
Definition all_down : World :=
  mkWorld 1000 false false false (files all_up) [].

Definition smtp_settings (priority : Z) : NodemailerSettings.t :=
  NodemailerSettings.mk (Some true) (Some priority) None None None
    (Some "smtp.lab") (Some 587) None (Some "user") (Some "secret") (Some "from@lab").

Definition api_settings (priority : Z) : SendGridSettings.t :=
  SendGridSettings.mk (Some true) (Some priority) None None None
    (Some "SG.key") (Some "from@lab").

(** Both adapters enabled, the SMTP adapter with the higher configured
    priority. *)
Definition smtp_preferred : SimpleEmailConfig.t :=
  SimpleEmailConfig.mk "lab" (Some (smtp_settings 5)) (Some (api_settings 1)) None.

Definition smtp_only : SimpleEmailConfig.t :=
  SimpleEmailConfig.mk "lab" (Some (smtp_settings 1)) None None.

(** The orchestrator [createEmailService] returns in the world [all_up]. *)
Definition service (config : SimpleEmailConfig.t) : SimpleEmailService.t collaborators :=
  (SimpleEmailService.initialize (SimpleEmailService.new config) (machine all_up)).1.2.

(** An SMTP configuration with no host and no credentials. *)
Definition no_credentials : NodemailerProvider.Config.t :=
  NodemailerProvider.Config.mk None None None None None None.

(** [new NodemailerProvider(logger)], before any [initialize]. *)
Definition fresh_smtp : NodemailerProvider.t collaborators :=
  NodemailerProvider.mk None None (Metrics.initial 1000).

(** An API adapter that was initialized and has one successful send on
    record. *)
Definition api_after_one_send : SendGridProvider.t :=
  SendGridProvider.mk
    (Some (SendGridProvider.Config.mk (Some "SG.key") (Some "from@lab")))
    true
    (Metrics.mk 1 1 0 1 40 1500 EmptyString).

(** An API adapter after [shutdown]. *)
Definition api_shut_down : SendGridProvider.t :=
  SendGridProvider.set_isInitialized false api_after_one_send.

(** A timer: the clock moves on by the delay. *)
Definition wait (ms : Z) (w : World) : World :=
  mkWorld (clock w + ms) (smtp_reachable w) (smtp_accepts w) (sendgrid_accepts w)
          (files w) (outbox w).

(** The SMTP server is reachable and refuses every message. *)
Definition smtp_refuses : World :=
  mkWorld 3000 true false true (files all_up) [].

(** The SMTP adapter of [service smtp_only]. *)
Definition smtp_ready : NodemailerProvider.t collaborators :=
  NodemailerProvider.mk (E:=collaborators)
    (Some (NodemailerProvider.transportOptions (E:=collaborators)
             (SimpleEmailService.nodemailer_config (smtp_settings 1))
           : Transporter collaborators))
    (Some (SimpleEmailService.nodemailer_config (smtp_settings 1)))
    (Metrics.initial 1000).

Definition second : EmailOptions.t := message "bob@lab" "Hello" "<p>Hi Bob</p>".

End Lab.

(** ** Vocabulary of the statements *)

Section Vocabulary.
Context {E : Collaborators}.

Definition provider_metrics (p : Provider E) : Metrics.t :=
  match p with
  | Nodemailer p => NodemailerProvider.metrics p
  | SendGrid p => SendGridProvider.metrics p
  end.

(** The adapter went through its [initialize]: the SMTP adapter holds a
    transporter, the API adapter has its flag set. *)
Definition ready (p : Provider E) : bool :=
  match p with
  | Nodemailer p =>
    match NodemailerProvider.transporter p with
    | Some _ => true
    | None => false
    end
  | SendGrid p => SendGridProvider.isInitialized p
  end.

(** The transport call of [sendEmail options], made on machine [m], throws
    [e]: the call happens once the clock has been read for [startTime]. *)
Definition transport_fails (p : Provider E) (options : EmailOptions.t)
  (m : Machine E) (e : Error) : Prop :=
  let w := (Date_now E (ext m)).2 in
  match p with
  | Nodemailer p =>
    exists transporter config,
      NodemailerProvider.transporter p = Some transporter
      /\ NodemailerProvider.config p = Some config
      /\ (sendMail E transporter
            (NodemailerProvider.mailOptions
               (NodemailerProvider.Config.from config) options) w).1 = Throw e
  | SendGrid p =>
    exists config,
      SendGridProvider.isInitialized p = true
      /\ SendGridProvider.config p = Some config
      /\ (send E (SendGridProvider.mailData (E:=E)
                    (SendGridProvider.Config.from config) options) w).1 = Throw e
  end.

(** The result [sendEmail] makes up when no provider succeeded. *)
Definition all_failed : EmailResult.t :=
  EmailResult.mk false None None (Some "All mail providers failed") 0 "none" None None.

(** Failover, in the words of the specification: the adapters are tried in
    list order; the first result with [success = true] is returned; an
    adapter whose result has [success = false], or which throws, is passed
    over (a throw leaves a warning in the log); when none is left the result
    is [all_failed].  [tried] are the adapters whose [sendEmail] ran. *)
Inductive Failover (options : EmailOptions.t)
  : list (Provider E) -> Machine E ->
    list (Provider E) -> EmailResult.t -> list (Provider E) -> Machine E -> Prop :=
| Failover_exhausted m :
    Failover options [] m [] all_failed [] m
| Failover_success p rest m result p' m' :
    IMailProvider.sendEmail options p m = (Ok result, p', m') ->
    EmailResult.success result = true ->
    Failover options (p :: rest) m [p] result (p' :: rest) m'
| Failover_failure p rest m result p' m' tried final rest' m'' :
    IMailProvider.sendEmail options p m = (Ok result, p', m') ->
    EmailResult.success result = false ->
    Failover options rest m' tried final rest' m'' ->
    Failover options (p :: rest) m (p :: tried) final (p' :: rest') m''
| Failover_raise p rest m error p' m' tried final rest' m'' :
    IMailProvider.sendEmail options p m = (Throw error, p', m') ->
    Failover options rest
      (log_line LogWarn ("Provider " +:+ IMailProvider.name p' +:+ " failed:") m')
      tried final rest' m'' ->
    Failover options (p :: rest) m (p :: tried) final (p' :: rest') m''.

(** An adapter survives: its construction, its [initialize] and its
    [verifyConnection] all return, the last one [true]. *)
Definition survives {P C} (new : Op E unit P) (initialize : C -> Op E P unit)
  (verifyConnection : Op E P bool) (config : C) (m : Machine E) : bool :=
  match new tt m with
  | (Ok p, _, m) =>
    match initialize config p m with
    | (Ok _, p, m) =>
      match verifyConnection p m with
      | (Ok connected, _, _) => connected
      | (Throw _, _, _) => false
      end
    | (Throw _, _, _) => false
    end
  | (Throw _, _, _) => false
  end.

(** The SMTP adapter is enabled in the configuration and survives on [m]. *)
Definition nodemailer_survives (config : SimpleEmailConfig.t) (m : Machine E) : bool :=
  match SimpleEmailConfig.nodemailer config with
  | Some nodemailer =>
    truthy_bool (NodemailerSettings.enabled nodemailer)
    && survives NodemailerProvider.new NodemailerProvider.initialize
         NodemailerProvider.verifyConnection
         (SimpleEmailService.nodemailer_config nodemailer) m
  | None => false
  end.

(** The same for the API adapter. *)
Definition sendgrid_survives (config : SimpleEmailConfig.t) (m : Machine E) : bool :=
  match SimpleEmailConfig.sendgrid config with
  | Some sendgrid =>
    truthy_bool (SendGridSettings.enabled sendgrid)
    && survives SendGridProvider.new SendGridProvider.initialize
         SendGridProvider.verifyConnection
         (SimpleEmailService.sendgrid_config sendgrid) m
  | None => false
  end.

(** The machine on which the API adapter is attempted: the one the block of
    the SMTP adapter leaves. *)
Definition after_nodemailer (config : SimpleEmailConfig.t) (m : Machine E) : Machine E :=
  (SimpleEmailService.initialize_nodemailer (SimpleEmailService.new config) m).2.


(** The entries [sendEmail options] leaves in the call log when it runs on
    the adapters [tried], in that order. *)
Definition sends (options : EmailOptions.t) (tried : list (Provider E)) : list Call :=
  map (fun p => CallSendEmail (IMailProvider.name p) options) tried.

End Vocabulary.

(** The [priority] entry of the configuration section named like the adapter. *)
Definition configured_priority (config : SimpleEmailConfig.t) (name : string)
  : option Z :=
  if String.eqb name NodemailerProvider.name
  then SimpleEmailConfig.nodemailer config ≫= NodemailerSettings.priority
  else if String.eqb name SendGridProvider.name
  then SimpleEmailConfig.sendgrid config ≫= SendGridSettings.priority
  else None.

(** Adjacent names are in descending order of configured priority. *)
Fixpoint descending_configured (config : SimpleEmailConfig.t) (names : list string)
  : Prop :=
  match names with
  | a :: ((b :: _) as rest) =>
    (exists x y, configured_priority config a = Some x
                 /\ configured_priority config b = Some y /\ y <= x)
    /\ descending_configured config rest
  | _ => True
  end.

(** The key [initialize] sorts on: [priority || 1]. *)
Definition sort_key {E : Collaborators} (p : Provider E) : Z :=
  or_number (IMailProvider.priority p) 1.

(** ** Vocabulary of the further statements *)

(** What the metrics of an adapter keep: the counters are natural numbers,
    and the two windows [sentToday] and [sentThisHour], for which there is
    no rollover, both equal [successCount]. *)
Definition metrics_consistent (m : Metrics.t) : Prop :=
  0 <= Metrics.successCount m
  /\ 0 <= Metrics.errorCount m
  /\ Metrics.sentToday m = Metrics.successCount m
  /\ Metrics.sentThisHour m = Metrics.successCount m.

(** The attempts on record. *)
Definition attempts (m : Metrics.t) : Z :=
  Metrics.successCount m + Metrics.errorCount m.

Definition total_attempts {E : Collaborators} (providers : list (Provider E)) : Z :=
  foldr (fun p n => attempts (provider_metrics p) + n) 0 providers.

(** What an orchestrator keeps: before initialization its list is empty;
    afterwards it is not, every adapter in it went through [initialize], the
    list is in descending order of priority and names no adapter twice. *)
Definition service_consistent {E : Collaborators} (s : SimpleEmailService.t E) : Prop :=
  if SimpleEmailService.initialized s
  then SimpleEmailService.providers s <> []
       /\ Forall (fun p => ready p = true) (SimpleEmailService.providers s)
       /\ StronglySorted
            (fun a b => IMailProvider.priority b <= IMailProvider.priority a)
            (SimpleEmailService.providers s)
       /\ NoDup (SimpleEmailService.getProviders s)
  else SimpleEmailService.providers s = [].

(** The result [sendBulkEmails] of the SMTP adapter makes up for a message
    whose [sendEmail] threw. *)
Definition bulk_failure (error : Error) : EmailResult.t :=
  EmailResult.mk false None None (Some (message error)) 0 NodemailerProvider.name
    None None.

(** How many results report a success, and how many a failure. *)
Definition successes (results : list EmailResult.t) : Z :=
  Z.of_nat (length (filter (fun r => EmailResult.success r = true) results)).

Definition failures (results : list EmailResult.t) : Z :=
  Z.of_nat (length (filter (fun r => EmailResult.success r = false) results)).

(** The warnings among the lines of a log: the ones the [catch] of the
    failover loop writes. *)
Definition warnings (log : list (LogLevel * string)) : list string :=
  omap (fun line => match line.1 with
                    | LogWarn => Some line.2
                    | _ => None
                    end) log.

Definition failed_result (r : EmailResult.t) : bool := negb (EmailResult.success r).

(** The two loops of [match_nodes], by name: the greedy star of a class
    and the lazy capturing group, [taken] being the text captured so far. *)
Definition star_loop (c : CharClass) (rest : list Node) (group : string)
  : string -> option string :=
  fix star (s : string) : option string :=
    match s with
    | String a s' =>
      if class_matches c a
      then match star s' with
           | Some g => Some g
           | None => match_nodes rest group s
           end
      else match_nodes rest group s
    | EmptyString => match_nodes rest group s
    end.

Definition lazy_loop (c : CharClass) (rest : list Node)
  : string -> string -> option string :=
  fix plus (taken : string) (s : string) : option string :=
    match s with
    | String a s' =>
      if class_matches c a
      then let taken := taken +:+ String a EmptyString in
           match match_nodes rest taken s' with
           | Some g => Some g
           | None => plus taken s'
           end
      else None
    | EmptyString => None
    end.

(** Every character of [s] satisfies [P]. *)
Fixpoint all_chars (P : ascii -> bool) (s : string) : bool :=
  match s with
  | EmptyString => true
  | String a s' => P a && all_chars P s'
  end.

(** The last character of a non-empty [s] satisfies [P]. *)
Fixpoint last_char (P : ascii -> bool) (s : string) : bool :=
  match s with
  | EmptyString => false
  | String a EmptyString => P a
  | String _ s' => last_char P s'
  end.

(** A subject a directive can carry as it is: a line of ASCII text that
    neither starts nor ends with a blank and holds no [>]. *)
Definition plain_subject (t : string) : bool :=
  match t with
  | EmptyString => false
  | String a _ =>
    negb (is_space a)
    && all_chars (fun c => (nat_of_ascii c <? 128)%nat) t
    && all_chars (fun c => negb (is_line_terminator c)
                           && negb (nat_of_ascii c =? 62)%nat) t
    && last_char (fun c => negb (is_space c)) t
  end.

(** [keyword] is [SUBJECT:] in some mix of upper and lower case. *)
Definition spells_SUBJECT (keyword : string) : bool :=
  String.eqb (string_of_list_ascii (map upper (list_ascii_of_string keyword)))
             "SUBJECT:".

(** What follows the captured group in [SUBJECT_pattern]: [\s*-->]. *)
Definition closing : list Node := [Star Space] ++ literal "-->".

Definition starts_with_bang (s : string) : bool :=
  match s with
  | String b _ => Ascii.eqb b "!"
  | EmptyString => false
  end.

(** No [<!] in [s]: no comment opens in it. *)
Fixpoint no_comment_start (s : string) : bool :=
  match s with
  | String a s' => negb (Ascii.eqb a "<" && starts_with_bang s') && no_comment_start s'
  | EmptyString => true
  end.

(** Every byte of [s] is an ASCII character.  On such a file the bytes are
    the characters of the string [readFileSync] returns, and the white
    space and line terminators of ECMAScript are the ASCII ones of
    [is_space] and [is_line_terminator]. *)
Definition ascii_only (s : string) : bool :=
  all_chars (fun c => (nat_of_ascii c <? 128)%nat) s.

(** The counters of [m] count at most [10^12] attempts.  On such counters
    the double [(s / (s + e)) * 100] of [getHealthStatus] and the exact
    ratio [Metrics.successRate] lie on the same side of 95.  The division
    and the multiplication each round by at most one part in [2^53], which
    moves the result by less than [3 / 10^14]; a ratio of counts [s] in
    [s + e] other than 95 in 100 is at least [5 / (s + e)] away from 95,
    that is [5 / 10^12] or more; and at 95 in 100 the double is exactly
    95. *)
Definition attempts_in_range (m : Metrics.t) : Prop :=
  0 <= Metrics.successCount m
  /\ 0 <= Metrics.errorCount m
  /\ Metrics.successCount m + Metrics.errorCount m <= 10 ^ 12.

(** The rate as [getHealthStatus] computes it, in binary64 with rounding to
    nearest even, and its test [successRate > 95]. *)
Definition double_of_Z (n : Z) : SpecFloat.spec_float :=
  SpecFloat.binary_normalize 53 1024 n 0 false.

Definition double_successRate (m : Metrics.t) : SpecFloat.spec_float :=
  if 0 <? Metrics.successCount m + Metrics.errorCount m
  then SpecFloat.SFmul 53 1024
         (SpecFloat.SFdiv 53 1024
            (double_of_Z (Metrics.successCount m))
            (double_of_Z (Metrics.successCount m + Metrics.errorCount m)))
         (double_of_Z 100)
  else double_of_Z 0.

Definition double_above_95 (m : Metrics.t) : bool :=
  SpecFloat.SFltb (double_of_Z 95) (double_successRate m).

(** Metrics with [s] successes and [e] errors on record. *)
Definition counted (s e : Z) : Metrics.t := Metrics.mk s s e s 0 0 EmptyString.

(** A call of a client on an orchestrator. *)
Inductive Request :=
| RequestInitialize
| RequestSendEmail (options : EmailOptions.t)
| RequestSendTemplateEmail
    (templateName : string) (templateData : TemplateData) (options : Envelope.t).

(** The orchestrator and the machine a call leaves when it has settled,
    whatever its completion. *)
Definition serve {E : Collaborators} (request : Request)
  (s : SimpleEmailService.t E) (m : Machine E) : SimpleEmailService.t E * Machine E :=
  match request with
  | RequestInitialize =>
    let run := SimpleEmailService.initialize s m in (run.1.2, run.2)
  | RequestSendEmail options =>
    let run := SimpleEmailService.sendEmail options s m in (run.1.2, run.2)
  | RequestSendTemplateEmail templateName templateData options =>
    let run := SimpleEmailService.sendTemplateEmail templateName templateData options s m in
    (run.1.2, run.2)
  end.

(** Calls made one after the other on one orchestrator: each starts when
    the previous one has settled.  Calls that overlap are not sessions. *)
Fixpoint session {E : Collaborators} (requests : list Request)
  (s : SimpleEmailService.t E) (m : Machine E) : SimpleEmailService.t E * Machine E :=
  match requests with
  | [] => (s, m)
  | request :: requests =>
    let settled := serve request s m in
    session requests settled.1 settled.2
  end.

(** The comparator of a sort in descending order of a numeric key. *)
Definition descending {A : Type} (key : A -> Z) (a b : A) : Z := key b - key a.

(** ** Tactics for running methods *)

(** Unfold the combinators of a method body. *)
Ltac run :=
  cbv beta iota zeta delta
    [bind ret throw try_catch read assign library library_total pure_library
     record_call logger log_line call dispatch] in *;
  cbn beta iota zeta in *.

(** Case analysis on the next library call or branch met by the goal. *)
Ltac branch :=
  match goal with
  | |- context [match ?x with _ => _ end] =>
      lazymatch x with
      | context [match _ with _ => _ end] => fail
      | _ => destruct x eqn:?
      end
  end; cbn beta iota zeta in *.

(** Close the cases a method body splits into. *)
Ltac close :=
  simplify_eq /=;
  repeat match goal with
         | H : (_ =? _)%string = _ |- _ => rewrite ?H in *; clear H
         end;
  repeat split; eauto; try congruence; try lia.


(** * Proofs *)


(** ** [Array.prototype.sort] on a numeric key *)

Section ArraySortFacts.
Context {A : Type} (key : A -> Z).

Lemma sort_insert_Permutation (x : A) (l : list A) :
  sort_insert (descending key) x l ≡ₚ x :: l.
Proof.
  induction l as [|y l IH]; simpl; [done|].
  destruct (0 <? descending key x y); [|done].
  rewrite IH. apply perm_swap.
Qed.

Lemma Array_sort_Permutation (l : list A) :
  Array_sort (descending key) l ≡ₚ l.
Proof.
  induction l as [|x l IH]; simpl; [done|].
  rewrite sort_insert_Permutation. by rewrite IH.
Qed.

Lemma sort_insert_Forall (P : A -> Prop) (x : A) (l : list A) :
  P x -> Forall P l -> Forall P (sort_insert (descending key) x l).
Proof.
  intros Hx Hl. induction Hl as [|y l Hy Hl IH]; simpl.
  - by constructor.
  - destruct (0 <? descending key x y); constructor; auto.
Qed.

Lemma sort_insert_sorted (x : A) (l : list A) :
  StronglySorted (fun a b => key b <= key a) l ->
  StronglySorted (fun a b => key b <= key a) (sort_insert (descending key) x l).
Proof.
  induction 1 as [|y l Hl IH Hy]; simpl.
  - repeat constructor.
  - unfold descending at 1.
    destruct (0 <? key y - key x) eqn:Hcmp.
    + apply Z.ltb_lt in Hcmp. constructor; [done|].
      apply sort_insert_Forall; [lia | done].
    + apply Z.ltb_ge in Hcmp. constructor.
      * by constructor.
      * constructor; [lia|].
        eapply Forall_impl; [exact Hy|]. simpl. intros z Hz. lia.
Qed.

Lemma Array_sort_sorted (l : list A) :
  StronglySorted (fun a b => key b <= key a) (Array_sort (descending key) l).
Proof.
  induction l as [|x l IH]; simpl; [constructor|].
  by apply sort_insert_sorted.
Qed.

Lemma sort_insert_stable (k : Z) (x : A) (l : list A) :
  filter (fun a => key a = k) (sort_insert (descending key) x l)
  = filter (fun a => key a = k) (x :: l).
Proof.
  induction l as [|y l IH]; simpl; [done|].
  unfold descending at 1.
  destruct (0 <? key y - key x) eqn:Hcmp; [|done].
  apply Z.ltb_lt in Hcmp.
  rewrite filter_cons, IH, !filter_cons.
  destruct (decide (key y = k)), (decide (key x = k)); try done; lia.
Qed.

Lemma Array_sort_stable (k : Z) (l : list A) :
  filter (fun a => key a = k) (Array_sort (descending key) l)
  = filter (fun a => key a = k) l.
Proof.
  induction l as [|x l IH]; simpl; [done|].
  rewrite sort_insert_stable, !filter_cons, IH. done.
Qed.

End ArraySortFacts.

Section AdapterFacts.
Context {E : Collaborators}.

(** *** What a send attempt does to the metrics *)

Lemma Nodemailer_sendEmail_metrics (p : NodemailerProvider.t E) options m :
  let '(r, p', m') := NodemailerProvider.sendEmail options p m in
  let before := NodemailerProvider.metrics p in
  let after := NodemailerProvider.metrics p' in
  match r with
  | Ok result =>
    if EmailResult.success result then
      Metrics.errorCount after = Metrics.errorCount before
      /\ Metrics.lastError after = Metrics.lastError before
    else
      Metrics.successCount after = Metrics.successCount before
      /\ Metrics.sentToday after = Metrics.sentToday before
      /\ Metrics.sentThisHour after = Metrics.sentThisHour before
      /\ Metrics.totalResponseTime after = Metrics.totalResponseTime before
      /\ Metrics.lastSuccessfulSend after = Metrics.lastSuccessfulSend before
      /\ Metrics.errorCount after = Metrics.errorCount before + 1
      /\ Metrics.lastError after = or_string (EmailResult.error result) "Unknown error"
  | Throw _ => after = before
  end.
Proof.
  unfold NodemailerProvider.sendEmail, NodemailerProvider.updateMetrics. run.
  destruct p as [tr cfg mt]; simpl.
  repeat branch; close.
Qed.

Lemma SendGrid_sendEmail_metrics (p : SendGridProvider.t) options (m : Machine E) :
  let '(r, p', m') := SendGridProvider.sendEmail options p m in
  let before := SendGridProvider.metrics p in
  let after := SendGridProvider.metrics p' in
  match r with
  | Ok result =>
    if EmailResult.success result then
      Metrics.errorCount after = Metrics.errorCount before
      /\ Metrics.lastError after = Metrics.lastError before
    else
      Metrics.successCount after = Metrics.successCount before
      /\ Metrics.sentToday after = Metrics.sentToday before
      /\ Metrics.sentThisHour after = Metrics.sentThisHour before
      /\ Metrics.totalResponseTime after = Metrics.totalResponseTime before
      /\ Metrics.lastSuccessfulSend after = Metrics.lastSuccessfulSend before
      /\ Metrics.errorCount after = Metrics.errorCount before + 1
      /\ Metrics.lastError after = or_string (EmailResult.error result) "Unknown error"
  | Throw _ => after = before
  end.
Proof.
  unfold SendGridProvider.sendEmail, SendGridProvider.updateMetrics. run.
  destruct p as [cfg init mt]; simpl.
  repeat branch; close.
Qed.

(** C10.  A send attempt that fails (a result with [success = false]) leaves
    [successCount], [sentToday], [sentThisHour], [totalResponseTime] and
    [lastSuccessfulSend] as they were, adds one to [errorCount] and sets
    [lastError]; a send attempt that succeeds leaves [errorCount] and
    [lastError] as they were.  (A call refused before any attempt, by a
    throw, leaves all the metrics as they were.) *)
Theorem sendEmail_metrics_frame (p : Provider E) options m :
  let '(r, p', m') := IMailProvider.sendEmail options p m in
  let before := provider_metrics p in
  let after := provider_metrics p' in
  match r with
  | Ok result =>
    if EmailResult.success result then
      Metrics.errorCount after = Metrics.errorCount before
      /\ Metrics.lastError after = Metrics.lastError before
    else
      Metrics.successCount after = Metrics.successCount before
      /\ Metrics.sentToday after = Metrics.sentToday before
      /\ Metrics.sentThisHour after = Metrics.sentThisHour before
      /\ Metrics.totalResponseTime after = Metrics.totalResponseTime before
      /\ Metrics.lastSuccessfulSend after = Metrics.lastSuccessfulSend before
      /\ Metrics.errorCount after = Metrics.errorCount before + 1
      /\ Metrics.lastError after = or_string (EmailResult.error result) "Unknown error"
  | Throw _ => after = before
  end.
Proof.
  destruct p as [p|p]; cbn [IMailProvider.sendEmail Provider_IMailProvider dispatch].
  - pose proof (Nodemailer_sendEmail_metrics p options m) as H.
    destruct (NodemailerProvider.sendEmail options p m) as [[r p'] m']. exact H.
  - pose proof (SendGrid_sendEmail_metrics p options m) as H.
    destruct (SendGridProvider.sendEmail options p m) as [[r p'] m']. exact H.
Qed.

(** The success side of the same attempt. *)
Lemma sendEmail_metrics_success (p : Provider E) options m result p' m' :
  IMailProvider.sendEmail options p m = (Ok result, p', m') ->
  EmailResult.success result = true ->
  let before := provider_metrics p in
  let after := provider_metrics p' in
  Metrics.successCount after = Metrics.successCount before + 1
  /\ Metrics.sentToday after = Metrics.sentToday before + 1
  /\ Metrics.sentThisHour after = Metrics.sentThisHour before + 1
  /\ Metrics.totalResponseTime after
     = Metrics.totalResponseTime before + EmailResult.duration result.
Proof.
  destruct p as [[tr cfg mt]|[cfg init mt]];
    cbn [IMailProvider.sendEmail Provider_IMailProvider];
    unfold NodemailerProvider.sendEmail, NodemailerProvider.updateMetrics,
      SendGridProvider.sendEmail, SendGridProvider.updateMetrics; run; simpl;
    repeat branch; intros; close.
Qed.

(** *** The call log of a send attempt *)

Lemma sendEmail_calls (p : Provider E) options m :
  let '(r, p', m') := IMailProvider.sendEmail options p m in
  calls m' = (calls m ++ [CallSendEmail (IMailProvider.name p) options])%list
  /\ IMailProvider.name p' = IMailProvider.name p.
Proof.
  destruct p as [[tr cfg mt]|[cfg init mt]];
    cbn [IMailProvider.sendEmail Provider_IMailProvider];
    unfold NodemailerProvider.sendEmail, NodemailerProvider.updateMetrics,
      SendGridProvider.sendEmail, SendGridProvider.updateMetrics; run; simpl;
    repeat branch; close.
Qed.

End AdapterFacts.

(** ** The orchestrator: failover *)

Section FailoverFacts.
Context {E : Collaborators}.

Lemma try_providers_Failover options (ps : list (Provider E)) :
  forall m,
    let '(found, ps', m') := SimpleEmailService.try_providers options ps m in
    exists tried,
      Failover options ps m tried (default all_failed found) ps' m'
      /\ calls m' = (calls m ++ sends options tried)%list
      /\ tried `prefix_of` ps
      /\ match found with
         | Some result => EmailResult.success result = true
         | None => tried = ps
         end.
Proof.
  induction ps as [|p rest IH]; intros m; cbn [SimpleEmailService.try_providers].
  - exists []. repeat split; [constructor | by rewrite app_nil_r | done].
  - pose proof (sendEmail_calls p options m) as Hcalls.
    destruct (IMailProvider.sendEmail options p m) as [[[result|error] p'] m1] eqn:Hsend;
      cbn beta iota zeta in Hcalls.
    + destruct Hcalls as [Hcalls Hname].
      destruct (EmailResult.success result) eqn:Hsuccess.
      * exists [p]. repeat split; [by constructor | done | | done].
        by apply prefix_cons, prefix_nil.
      * specialize (IH m1).
        destruct (SimpleEmailService.try_providers options rest m1)
          as [[found rest'] m2].
        destruct IH as (tried & Hrun & Hlog & Hprefix & Hfound).
        exists (p :: tried). repeat split.
        -- eapply Failover_failure; eauto.
        -- rewrite Hlog, Hcalls. simpl. by rewrite <- app_assoc.
        -- by apply prefix_cons.
        -- destruct found; [done | by f_equal].
    + destruct Hcalls as [Hcalls Hname].
      set (m1' := log_line LogWarn _ m1).
      specialize (IH m1').
      destruct (SimpleEmailService.try_providers options rest m1')
        as [[found rest'] m2].
      destruct IH as (tried & Hrun & Hlog & Hprefix & Hfound).
      exists (p :: tried). repeat split.
      -- eapply Failover_raise; eauto.
      -- rewrite Hlog. subst m1'. simpl. rewrite Hcalls. simpl.
         by rewrite <- app_assoc.
      -- by apply prefix_cons.
      -- destruct found; [done | by f_equal].
Qed.

(** C1.  On an initialized orchestrator [sendEmail] returns (it does not
    throw); the adapters' [sendEmail] run in list order, as the call log
    shows; the result is that of the first adapter whose result has
    [success = true], adapters that return [success = false] or throw being
    passed over; when every adapter fails or throws the result is
    [all_failed]: provider [none], error [All mail providers failed],
    duration 0. *)
Theorem sendEmail_failover (s : SimpleEmailService.t E) options m :
  SimpleEmailService.initialized s = true ->
  exists tried result providers' m',
    SimpleEmailService.sendEmail options s m
    = (Ok result, SimpleEmailService.set_providers providers' s, m')
    /\ Failover options (SimpleEmailService.providers s) m tried result providers' m'
    /\ calls m' = (calls m ++ sends options tried)%list
    /\ tried `prefix_of` SimpleEmailService.providers s
    /\ (EmailResult.success result = true
        \/ (tried = SimpleEmailService.providers s
            /\ result = EmailResult.mk false None None
                          (Some "All mail providers failed") 0 "none" None None)).
Proof.
  intros Hready.
  pose proof (try_providers_Failover options (SimpleEmailService.providers s) m) as H.
  unfold SimpleEmailService.sendEmail. run. rewrite Hready. simpl.
  destruct (SimpleEmailService.try_providers options (SimpleEmailService.providers s) m)
    as [[found ps'] m'].
  destruct H as (tried & Hrun & Hlog & Hprefix & Hfound).
  exists tried, (default all_failed found), ps', m'.
  destruct found as [result|]; simpl in *; repeat split; auto.
Qed.

End FailoverFacts.

(** ** The orchestrator: initialization *)

Section InitializeFacts.
Context {E : Collaborators}.

Lemma initialize_nodemailer_spec (s : SimpleEmailService.t E) m :
  let '(r, s', m') := SimpleEmailService.initialize_nodemailer s m in
  r = Ok tt
  /\ SimpleEmailService.initialized s' = SimpleEmailService.initialized s
  /\ SimpleEmailService.config s' = SimpleEmailService.config s
  /\ if nodemailer_survives (SimpleEmailService.config s) m
     then exists p, SimpleEmailService.providers s'
                    = (SimpleEmailService.providers s ++ [Nodemailer p])%list
     else SimpleEmailService.providers s' = SimpleEmailService.providers s.
Proof.
  unfold SimpleEmailService.initialize_nodemailer, nodemailer_survives, survives,
    SimpleEmailService.push,
    NodemailerProvider.new, NodemailerProvider.initialize,
    NodemailerProvider.verifyConnection.
  run. destruct s as [ps init cfg]; simpl.
  repeat branch; close.
Qed.

Lemma initialize_sendgrid_spec (s : SimpleEmailService.t E) m :
  let '(r, s', m') := SimpleEmailService.initialize_sendgrid s m in
  r = Ok tt
  /\ SimpleEmailService.initialized s' = SimpleEmailService.initialized s
  /\ SimpleEmailService.config s' = SimpleEmailService.config s
  /\ if sendgrid_survives (SimpleEmailService.config s) m
     then exists p, SimpleEmailService.providers s'
                    = (SimpleEmailService.providers s ++ [SendGrid p])%list
     else SimpleEmailService.providers s' = SimpleEmailService.providers s.
Proof.
  unfold SimpleEmailService.initialize_sendgrid, sendgrid_survives, survives,
    SimpleEmailService.push,
    SendGridProvider.new, SendGridProvider.initialize,
    SendGridProvider.verifyConnection.
  run. destruct s as [ps init cfg]; simpl.
  repeat branch; close.
Qed.

Lemma initialize_fresh (config : SimpleEmailConfig.t) (m : Machine E) :
  let '(r, s', m') := SimpleEmailService.initialize (SimpleEmailService.new config) m in
  exists pushed,
    map IMailProvider.name pushed
    = ((if nodemailer_survives config m then [NodemailerProvider.name] else [])
       ++ (if sendgrid_survives config (after_nodemailer config m)
           then [SendGridProvider.name] else []))%list
    /\ SimpleEmailService.config s' = config
    /\ match pushed with
       | [] => r = Throw (mkError "No mail providers could be initialized")
               /\ SimpleEmailService.providers s' = []
               /\ SimpleEmailService.initialized s' = false
       | _ => r = Ok tt
              /\ SimpleEmailService.providers s'
                 = Array_sort SimpleEmailService.by_priority pushed
              /\ SimpleEmailService.initialized s' = true
       end.
Proof.
  unfold SimpleEmailService.initialize, after_nodemailer. run.
  cbn [SimpleEmailService.initialized SimpleEmailService.new].
  pose proof (initialize_nodemailer_spec (SimpleEmailService.new config) m) as Hn.
  destruct (SimpleEmailService.initialize_nodemailer (SimpleEmailService.new config) m)
    as [[r1 s1] m1].
  cbn beta iota zeta in Hn. destruct Hn as (Hr1 & Hi1 & Hc1 & Hp1). subst r1.
  simpl in Hi1, Hc1, Hp1 |- *.
  pose proof (initialize_sendgrid_spec s1 m1) as Hs.
  destruct (SimpleEmailService.initialize_sendgrid s1 m1) as [[r2 s2] m2].
  cbn beta iota zeta in Hs. destruct Hs as (Hr2 & Hi2 & Hc2 & Hp2). subst r2.
  rewrite Hc1 in Hp2.
  destruct s2 as [ps2 init2 cfg2]; simpl in *. subst init2 cfg2.
  assert (map IMailProvider.name ps2
          = ((if nodemailer_survives config m then [NodemailerProvider.name] else [])
             ++ (if sendgrid_survives config m1 then [SendGridProvider.name] else []))%list)
    as Hnames.
  { destruct (nodemailer_survives config m), (sendgrid_survives config m1);
      repeat match goal with H : exists _, _ |- _ => destruct H as [? H] end;
      rewrite Hp2, ?Hp1; by rewrite ?map_app. }
  destruct ps2 as [|p ps2]; simpl.
  - exists []. by rewrite <- Hnames, Hc1.
  - exists (p :: ps2). by rewrite <- Hnames, Hc1.
Qed.

End InitializeFacts.

Section InitializeTheorems.
Context {E : Collaborators}.

Lemma StronglySorted_weaken {A} (R R' : A -> A -> Prop) (l : list A) :
  (forall a b, R a b -> R' a b) -> StronglySorted R l -> StronglySorted R' l.
Proof.
  intros HR. induction 1 as [|x l Hl IH Hx]; constructor; [done|].
  eapply Forall_impl; [exact Hx | auto].
Qed.

Lemma sort_key_priority (p : Provider E) : sort_key p = IMailProvider.priority p.
Proof. by destruct p. Qed.

Lemma filter_priority_sort_key (k : Z) (l : list (Provider E)) :
  filter (fun p => IMailProvider.priority p = k) l
  = filter (fun p => sort_key p = k) l.
Proof.
  induction l as [|p l IH]; [done|].
  rewrite !filter_cons, IH.
  destruct (decide (IMailProvider.priority p = k)), (decide (sort_key p = k));
    try done; by rewrite sort_key_priority in *.
Qed.

Lemma Array_sort_by_priority (l : list (Provider E)) :
  Array_sort SimpleEmailService.by_priority l
  = Array_sort (descending sort_key) l.
Proof. reflexivity. Qed.

Lemma names_registration_order (pushed : list (Provider E)) (a b : bool) :
  map IMailProvider.name pushed
  = ((if a then [NodemailerProvider.name] else [])
     ++ (if b then [SendGridProvider.name] else []))%list ->
  pushed = []
  \/ (exists p, pushed = [Nodemailer p])
  \/ (exists q, pushed = [SendGrid q])
  \/ (exists p q, pushed = [Nodemailer p; SendGrid q]).
Proof.
  destruct a, b; simpl; intros H;
    repeat (destruct pushed as [|[?|?] pushed]; simplify_eq /=); eauto 10.
Qed.

(** C3.  On a new orchestrator [initialize] throws the error
    [No mail providers could be initialized] exactly when no configured
    adapter survives initialization plus connection verification; when at
    least one survives it returns, the orchestrator is initialized, and its
    adapters are the survivors. *)
Theorem initialize_raises_iff_no_survivor (config : SimpleEmailConfig.t) (m : Machine E) :
  let smtp := nodemailer_survives config m in
  let api := sendgrid_survives config (after_nodemailer config m) in
  let '(r, s', m') := SimpleEmailService.initialize (SimpleEmailService.new config) m in
  SimpleEmailService.getProviders s'
    ≡ₚ ((if smtp then [NodemailerProvider.name] else [])
        ++ (if api then [SendGridProvider.name] else []))%list
  /\ if smtp || api
     then r = Ok tt
          /\ SimpleEmailService.initialized s' = true
          /\ SimpleEmailService.providers s' <> []
     else r = Throw (mkError "No mail providers could be initialized")
          /\ SimpleEmailService.initialized s' = false
          /\ SimpleEmailService.providers s' = [].
Proof.
  intros smtp api. subst smtp api.
  pose proof (initialize_fresh config m) as H.
  destruct (SimpleEmailService.initialize (SimpleEmailService.new config) m)
    as [[r s'] m'].
  destruct H as (pushed & Hnames & Hconfig & H).
  unfold SimpleEmailService.getProviders. rewrite <- Hnames.
  destruct pushed as [|p pushed].
  - destruct H as (-> & -> & ->).
    destruct (nodemailer_survives config m),
      (sendgrid_survives config (after_nodemailer config m)); by simplify_eq /=.
  - destruct H as (-> & Hsorted & ->). rewrite Hsorted, Array_sort_by_priority.
    split.
    + apply fmap_Permutation, Array_sort_Permutation.
    + assert (Array_sort (descending sort_key) (p :: pushed) <> [])
        as Hne.
      { intros Hnil. apply (f_equal length) in Hnil.
        by rewrite (Permutation_length (Array_sort_Permutation sort_key _)) in Hnil. }
      destruct (nodemailer_survives config m),
        (sendgrid_survives config (after_nodemailer config m)); by simplify_eq /=.
Qed.

(** C2 (as amended).  After a successful [initialize] of a new orchestrator
    the adapter list is in descending order of the adapters' own
    [priority] (2 for the API adapter, 1 for the SMTP adapter: the
    [priority] entries of the configuration are not read), adapters of equal
    priority staying in registration order (SMTP adapter, then API adapter),
    and [getProviders] lists the adapter names in exactly that order. *)
Theorem initialize_sorts_by_adapter_priority
  (config : SimpleEmailConfig.t) (m : Machine E) :
  let run := SimpleEmailService.initialize (SimpleEmailService.new config) m in
  run.1.1 = Ok tt ->
  StronglySorted (fun a b => IMailProvider.priority b <= IMailProvider.priority a)
    (SimpleEmailService.providers run.1.2)
  /\ (exists pushed : list (Provider E),
        map IMailProvider.name pushed
          `sublist_of` [NodemailerProvider.name; SendGridProvider.name]
        /\ SimpleEmailService.providers run.1.2 ≡ₚ pushed
        /\ forall k, filter (fun p => IMailProvider.priority p = k)
                       (SimpleEmailService.providers run.1.2)
                     = filter (fun p => IMailProvider.priority p = k) pushed)
  /\ SimpleEmailService.getProviders run.1.2
     = map IMailProvider.name (SimpleEmailService.providers run.1.2)
  /\ (SimpleEmailService.getProviders run.1.2 = [NodemailerProvider.name]
      \/ SimpleEmailService.getProviders run.1.2 = [SendGridProvider.name]
      \/ SimpleEmailService.getProviders run.1.2
         = [SendGridProvider.name; NodemailerProvider.name]).
Proof.
  intros run. subst run.
  pose proof (initialize_fresh config m) as H.
  destruct (SimpleEmailService.initialize (SimpleEmailService.new config) m)
    as [[r s'] m']; cbn [fst snd].
  intros ->.
  destruct H as (pushed & Hnames & Hconfig & H).
  destruct pushed as [|p0 pushed0]; [by destruct H|].
  destruct H as (_ & Hsorted & _).
  set (pushed := p0 :: pushed0) in *.
  rewrite Array_sort_by_priority in Hsorted.
  split; [|split; [|split]].
  - rewrite Hsorted.
    eapply StronglySorted_weaken; [|apply (Array_sort_sorted sort_key)].
    intros a b. cbn beta. by rewrite !sort_key_priority.
  - exists pushed. split; [|split].
    + rewrite Hnames.
      destruct (nodemailer_survives config m),
        (sendgrid_survives config (after_nodemailer config m)); simpl;
        repeat constructor.
    + rewrite Hsorted. apply Array_sort_Permutation.
    + intros k. rewrite Hsorted, !filter_priority_sort_key.
      apply Array_sort_stable.
  - reflexivity.
  - unfold SimpleEmailService.getProviders. rewrite Hsorted.
    destruct (names_registration_order _ _ _ Hnames)
      as [Hp|[[p Hp]|[[q Hp]|(p & q & Hp)]]]; rewrite Hp; simpl; auto.
    done.
Qed.

(** C9.  On an initialized orchestrator [initialize] is a no-op: it returns
    at once, the object (its adapter list included) and the machine (its
    record of constructor and method calls included) are unchanged. *)
Theorem initialize_idempotent (s : SimpleEmailService.t E) (m : Machine E) :
  SimpleEmailService.initialized s = true ->
  SimpleEmailService.initialize s m = (Ok tt, s, m).
Proof.
  intros Hready. unfold SimpleEmailService.initialize. run. by rewrite Hready.
Qed.

End InitializeTheorems.

(** ** The adapters *)

Section AdapterTheorems.
Context {E : Collaborators}.

(** C4 (as amended).  On an adapter that went through [initialize],
    [sendEmail] returns for every message (it does not throw): when the
    transport call throws, the error is caught and the result has
    [success = false] and the text of the error; every result with
    [success = false] carries an error text, and the adapter's metrics
    record it ([errorCount] grows by one, [lastError] is the text, or
    [Unknown error] when the text is empty). *)
Theorem sendEmail_returns_when_ready (p : Provider E) options m :
  ready p = true ->
  exists result p' m',
    IMailProvider.sendEmail options p m = (Ok result, p', m')
    /\ EmailResult.provider result = IMailProvider.name p
    /\ (forall e, transport_fails p options m e ->
          EmailResult.success result = false
          /\ EmailResult.error result = Some (message e))
    /\ (EmailResult.success result = false ->
          exists text,
            EmailResult.error result = Some text
            /\ Metrics.errorCount (provider_metrics p')
               = Metrics.errorCount (provider_metrics p) + 1
            /\ Metrics.lastError (provider_metrics p')
               = or_string (Some text) "Unknown error").
Proof.
  destruct p as [[tr cfg mt]|[cfg init mt]];
    cbn [IMailProvider.sendEmail Provider_IMailProvider IMailProvider.name];
    unfold ready, transport_fails, NodemailerProvider.sendEmail,
      NodemailerProvider.updateMetrics, SendGridProvider.sendEmail,
      SendGridProvider.updateMetrics; run; simpl; intros Hready;
    repeat branch; simplify_eq /=;
    do 3 eexists; (split; [reflexivity|]); (split; [reflexivity|]);
    (split;
     [ intros e Hfail;
       repeat match type of Hfail with
              | exists _, _ => destruct Hfail as [? Hfail]
              | _ /\ _ => destruct Hfail as [? Hfail]
              end;
       simplify_eq /=;
       repeat match goal with
              | H : _ = (_, _) |- _ => rewrite H in Hfail; simpl in Hfail
              end;
       by simplify_eq /=
     | intros Hfailed; simplify_eq /=; eexists; repeat split ]);
    by repeat match goal with
              | H : (_ =? _)%string = _ |- _ => rewrite H
              end.
Qed.

Lemma successRate_above_95 (mt : Metrics.t) :
  Qgtb (Metrics.successRate mt) 95 = true
  <-> 0 < Metrics.successCount mt + Metrics.errorCount mt
      /\ 95 * (Metrics.successCount mt + Metrics.errorCount mt)
         < 100 * Metrics.successCount mt.
Proof.
  unfold Qgtb, Metrics.successRate.
  destruct (0 <? Metrics.successCount mt + Metrics.errorCount mt) eqn:Hpos.
  - apply Z.ltb_lt in Hpos.
    destruct (Metrics.successCount mt + Metrics.errorCount mt) as [|total|total] eqn:Ht;
      [lia| |lia].
    rewrite negb_true_iff, <- not_true_iff_false, Qle_bool_iff.
    unfold Qle, Qdiv, Qmult, Qinv, inject_Z; simpl.
    rewrite Pos.mul_1_r. lia.
  - apply Z.ltb_ge in Hpos. simpl. split; [done | lia].
Qed.

(** C5 (as amended).  For an adapter with at most [10^12] attempts on
    record: [getHealthStatus] of the SMTP adapter invokes
    [verifyConnection] again, and its [isHealthy] is true exactly when that
    check passes and the success rate exceeds 95; [getHealthStatus] of the
    API adapter does not invoke [verifyConnection] (no call, the world is
    left as it is): its [isHealthy] is true exactly when the adapter's
    [isInitialized] flag is set and the success rate exceeds 95.  The
    success rate exceeds 95 exactly when there is a recorded attempt and
    more than 95 in 100 of the recorded attempts succeeded.  (Beyond that
    number of attempts the rounding of the double the code computes can
    decide the comparison with 95, and nothing is stated.) *)
Theorem getHealthStatus_isHealthy :
  (forall (p : NodemailerProvider.t E) (m : Machine E),
     attempts_in_range (NodemailerProvider.metrics p) ->
     let entered :=
       mkMachine (ext m) (calls m ++ [CallGetHealthStatus NodemailerProvider.name])
                 (logs m) in
     let '(check, p', m') := NodemailerProvider.verifyConnection p entered in
     exists connected status,
       check = Ok connected
       /\ NodemailerProvider.getHealthStatus p m = (Ok status, p', m')
       /\ ProviderHealthStatus.isHealthy status
          = connected && Qgtb (Metrics.successRate (NodemailerProvider.metrics p)) 95
       /\ calls m' = (calls m ++ [CallGetHealthStatus NodemailerProvider.name;
                                  CallVerifyConnection NodemailerProvider.name])%list)
  /\ (forall (p : SendGridProvider.t) (m : Machine E),
        attempts_in_range (SendGridProvider.metrics p) ->
        exists status,
          SendGridProvider.getHealthStatus p m
          = (Ok status, p,
             mkMachine (ext m) (calls m ++ [CallGetHealthStatus SendGridProvider.name])
                       (logs m))
          /\ ProviderHealthStatus.isHealthy status
             = SendGridProvider.isInitialized p
               && Qgtb (Metrics.successRate (SendGridProvider.metrics p)) 95)
  /\ (forall mt : Metrics.t,
        attempts_in_range mt ->
        Qgtb (Metrics.successRate mt) 95 = true
        <-> 0 < Metrics.successCount mt + Metrics.errorCount mt
            /\ 95 * (Metrics.successCount mt + Metrics.errorCount mt)
               < 100 * Metrics.successCount mt).
Proof.
  split; [|split].
  - intros [tr cfg mt] m _.
    unfold NodemailerProvider.getHealthStatus, NodemailerProvider.verifyConnection.
    run. simpl.
    destruct tr as [tr|]; simpl.
    + destruct (verify E tr (ext m)) as [[[]|error] w]; simpl;
        do 2 eexists; repeat split; by rewrite <- app_assoc.
    + do 2 eexists; repeat split; by rewrite <- app_assoc.
  - intros [cfg init mt] m _. unfold SendGridProvider.getHealthStatus. run. simpl.
    eexists. split; reflexivity.
  - intros mt _. apply successRate_above_95.
Qed.

(** C8 (as amended).  [initialize] of the API adapter throws the error
    [SendGrid API key is required] when the configuration has no API key
    (absent or empty); the adapter keeps its [isInitialized] flag, and the
    library is not given any key (the world is left as it is). *)
Theorem initialize_credentials
  (config : SendGridProvider.Config.t) (p : SendGridProvider.t) (m : Machine E) :
  truthy_string (SendGridProvider.Config.apiKey config) = false ->
  SendGridProvider.initialize config p m
  = (Throw (mkError "SendGrid API key is required"),
     SendGridProvider.set_config (Some config) p,
     mkMachine (ext m) (calls m ++ [CallInitialize SendGridProvider.name]) (logs m)).
Proof.
  intros Hkey.
  unfold SendGridProvider.initialize, truthy_string in *. run.
  destruct (SendGridProvider.Config.apiKey config) as [key|]; [|done].
  apply negb_false_iff in Hkey. by rewrite Hkey.
Qed.

(** [initialize] of the SMTP adapter checks no credential: it returns
    whenever [createTransport] does, whatever the host, user and password
    are.  (A transport without credentials is refused later, by the
    handshake of [verifyConnection].) *)
Lemma smtp_initialize_checks_nothing
  (config : NodemailerProvider.Config.t) (p : NodemailerProvider.t E)
  (m : Machine E) transporter w :
  createTransport E (NodemailerProvider.transportOptions (E:=E) config) (ext m)
  = (Ok transporter, w) ->
  exists p' m',
    NodemailerProvider.initialize config p m = (Ok tt, p', m')
    /\ NodemailerProvider.transporter p' = Some transporter.
Proof.
  intros Hcreate.
  unfold NodemailerProvider.initialize. run. simpl. rewrite Hcreate. simpl.
  by do 2 eexists.
Qed.

(** An adapter that did not go through [initialize] (or, for the API
    adapter, that was shut down) throws from [sendEmail], before any
    attempt. *)
Lemma sendEmail_raises_when_not_ready (p : Provider E) options m :
  ready p = false ->
  exists m',
    IMailProvider.sendEmail options p m
    = (Throw (mkError (match p with
                       | Nodemailer _ => "Nodemailer provider not initialized"
                       | SendGrid _ => "SendGrid provider not initialized"
                       end)), p, m')
    /\ calls m' = (calls m ++ [CallSendEmail (IMailProvider.name p) options])%list.
Proof.
  destruct p as [[tr cfg mt]|[cfg init mt]];
    cbn [IMailProvider.sendEmail Provider_IMailProvider IMailProvider.name];
    unfold ready, NodemailerProvider.sendEmail, SendGridProvider.sendEmail; run; simpl;
    intros Hready; repeat branch; simplify_eq /=; by eexists.
Qed.

End AdapterTheorems.

(** ** The template loader *)

Section TemplateTheorems.
Context {E : Collaborators}.


Lemma loadTemplate_success
  (s : SimpleEmailService.t E) templateName data options m source html subject w' :
  readFileSync E
    (SimpleEmailService.templatePath (SimpleEmailService.config s) templateName)
    (ext m) = (Ok source, w') ->
  compile E source data = Ok html ->
  match String_match source SUBJECT_pattern with
  | Some group1 => compile E group1 data
  | None => Ok "Email Notification"
  end = Ok subject ->
  SimpleEmailService.loadTemplate templateName data options s m
  = (Ok (inl (SimpleEmailService.with_subject_html options subject html)),
     s, mkMachine w' (calls m) (logs m)).
Proof.
  intros Hread Hbody Hsubject.
  unfold SimpleEmailService.loadTemplate. run.
  rewrite Hread; simpl. rewrite Hbody; simpl.
  destruct (String_match source SUBJECT_pattern) as [group1|]; simpl.
  - by rewrite Hsubject.
  - by simplify_eq.
Qed.


(** C6 (as amended).  For an ASCII template file, the message
    [sendTemplateEmail] hands to [sendEmail] has as [html] the rendering of
    the whole file, the directive line included, and as [subject] the
    rendering of the text of the subject directive, or [Email Notification]
    when the file has no such directive.  (In a file with other characters
    the expression of the code also takes the white space of Unicode for
    blanks, and nothing is stated.)  With handlebars' variable
    substitution: for the file made of the line
    [<!-- SUBJECT: Hi {{name}} -->] and the body [<p>{{name}}</p>] and the
    data [{name: Ada}], the subject is [Hi Ada] and the html is
    [<!-- SUBJECT: Hi Ada -->] followed by [<p>Ada</p>]; for the file
    [<p>{{name}}</p>] alone no directive is found and the html is
    [<p>Ada</p>]. *)
Theorem sendTemplateEmail_subject_and_body :
  (forall (s : SimpleEmailService.t E) templateName data options m source w' html,
     ascii_only source = true ->
     readFileSync E
       (SimpleEmailService.templatePath (SimpleEmailService.config s) templateName)
       (ext m) = (Ok source, w') ->
     compile E source data = Ok html ->
     (forall group1 subject,
        String_match source SUBJECT_pattern = Some group1 ->
        compile E group1 data = Ok subject ->
        SimpleEmailService.sendTemplateEmail templateName data options s m
        = SimpleEmailService.sendEmail
            (SimpleEmailService.with_subject_html options subject html)
            s (mkMachine w' (calls m) (logs m)))
     /\ (String_match source SUBJECT_pattern = None ->
         SimpleEmailService.sendTemplateEmail templateName data options s m
         = SimpleEmailService.sendEmail
             (SimpleEmailService.with_subject_html options "Email Notification" html)
             s (mkMachine w' (calls m) (logs m))))
  /\ (String_match Lab.welcome_html SUBJECT_pattern = Some "Hi {{name}}"
      /\ Handlebars.compile "Hi {{name}}" Lab.ada = Ok "Hi Ada"
      /\ Handlebars.compile Lab.welcome_html Lab.ada
         = Ok ("<!-- SUBJECT: Hi Ada -->" +:+ Lab.LF +:+ "<p>Ada</p>"))
  /\ (String_match Lab.plain_html SUBJECT_pattern = None
      /\ Handlebars.compile Lab.plain_html Lab.ada = Ok "<p>Ada</p>").
Proof.
  split; [|split; [|split]]; [| by vm_compute ..].
  intros s templateName data options m source w' html _ Hread Hbody. split.
  - intros group1 subject Hmatch Hsubject.
    unfold SimpleEmailService.sendTemplateEmail, bind.
    erewrite loadTemplate_success;
      [reflexivity | exact Hread | exact Hbody | by rewrite Hmatch].
  - intros Hmatch.
    unfold SimpleEmailService.sendTemplateEmail, bind.
    erewrite loadTemplate_success;
      [reflexivity | exact Hread | exact Hbody | by rewrite Hmatch].
Qed.

End TemplateTheorems.

(** ** The statements on the scripted world *)

(** The scenario of the specification: the adapter tried first (the API
    adapter, priority 2) returns [success = false], the next one (the SMTP
    adapter, priority 1) succeeds, and [sendEmail] returns its result. *)
Example failover_returns_second_adapter :
  let run :=
    SimpleEmailService.sendEmail Lab.hello (Lab.service Lab.smtp_preferred)
      (Lab.machine Lab.api_down) in
  SimpleEmailService.getProviders (Lab.service Lab.smtp_preferred)
  = ["sendgrid"; "nodemailer"]
  /\ run.1.1 = Ok (EmailResult.mk true (Some "<1@lab>") (Some "250 OK") None 1
                     "nodemailer" None None)
  /\ calls run.2 = [CallSendEmail "sendgrid" Lab.hello; CallSendEmail "nodemailer" Lab.hello]
  /\ map (fun p => Metrics.errorCount (provider_metrics p))
       (SimpleEmailService.providers run.1.2) = [1; 0].
Proof. repeat split; reflexivity. Qed.

(** The other scenario: a single adapter whose [sendEmail] throws. *)
Example failover_single_raising_adapter :
  let s := SimpleEmailService.mk [SendGrid Lab.api_shut_down] true Lab.smtp_only in
  (IMailProvider.sendEmail Lab.hello (SendGrid Lab.api_shut_down)
     (Lab.machine Lab.all_up)).1.1
  = Throw (mkError "SendGrid provider not initialized")
  /\ (SimpleEmailService.sendEmail Lab.hello s (Lab.machine Lab.all_up)).1.1
     = Ok all_failed.
Proof. split; reflexivity. Qed.

Lemma sendEmail_failover_witness :
  SimpleEmailService.initialized (Lab.service Lab.smtp_preferred) = true
  /\ exists tried result providers' m',
       SimpleEmailService.sendEmail Lab.hello (Lab.service Lab.smtp_preferred)
         (Lab.machine Lab.api_down)
       = (Ok result,
          SimpleEmailService.set_providers providers' (Lab.service Lab.smtp_preferred),
          m')
       /\ Failover Lab.hello
            (SimpleEmailService.providers (Lab.service Lab.smtp_preferred))
            (Lab.machine Lab.api_down) tried result providers' m'
       /\ calls m' = (calls (Lab.machine Lab.api_down) ++ sends Lab.hello tried)%list
       /\ tried `prefix_of` SimpleEmailService.providers (Lab.service Lab.smtp_preferred)
       /\ (EmailResult.success result = true
           \/ (tried = SimpleEmailService.providers (Lab.service Lab.smtp_preferred)
               /\ result = EmailResult.mk false None None
                             (Some "All mail providers failed") 0 "none" None None)).
Proof.
  split; [reflexivity|].
  apply (sendEmail_failover (Lab.service Lab.smtp_preferred) Lab.hello
           (Lab.machine Lab.api_down)).
  reflexivity.
Defined.

(** C2, as stated, fails: with the SMTP adapter configured at priority 5 and
    the API adapter at priority 1, [getProviders] lists the API adapter
    first. *)
Lemma configured_priority_not_followed :
  let run :=
    SimpleEmailService.initialize (SimpleEmailService.new Lab.smtp_preferred)
      (Lab.machine Lab.all_up) in
  run.1.1 = Ok tt
  /\ SimpleEmailService.getProviders run.1.2 = ["sendgrid"; "nodemailer"]
  /\ configured_priority Lab.smtp_preferred "sendgrid" = Some 1
  /\ configured_priority Lab.smtp_preferred "nodemailer" = Some 5
  /\ ~ descending_configured Lab.smtp_preferred (SimpleEmailService.getProviders run.1.2).
Proof.
  intros run.
  assert (SimpleEmailService.getProviders run.1.2 = ["sendgrid"; "nodemailer"]) as Hnames
    by reflexivity.
  rewrite Hnames.
  do 4 (split; [reflexivity|]).
  clear run Hnames. intros [(x & y & Hx & Hy & Hle) _].
  vm_compute in Hx, Hy. injection Hx as <-. injection Hy as <-. lia.
Qed.

Lemma initialize_sorts_by_adapter_priority_witness :
  let run :=
    SimpleEmailService.initialize (SimpleEmailService.new Lab.smtp_preferred)
      (Lab.machine Lab.all_up) in
  run.1.1 = Ok tt
  /\ StronglySorted (fun a b => IMailProvider.priority b <= IMailProvider.priority a)
       (SimpleEmailService.providers run.1.2)
  /\ SimpleEmailService.getProviders run.1.2
     = map IMailProvider.name (SimpleEmailService.providers run.1.2).
Proof.
  intros run. split; [reflexivity|].
  destruct (initialize_sorts_by_adapter_priority Lab.smtp_preferred
              (Lab.machine Lab.all_up) eq_refl) as (Hsorted & _ & Hnames & _).
  exact (conj Hsorted Hnames).
Defined.

(** Both directions of C3 on the scripted world. *)
Example initialize_with_all_down :
  (SimpleEmailService.initialize (SimpleEmailService.new Lab.smtp_preferred)
     (Lab.machine Lab.all_down)).1.1
  = Throw (mkError "No mail providers could be initialized").
Proof. reflexivity. Qed.

Example initialize_with_api_down :
  let run :=
    SimpleEmailService.initialize (SimpleEmailService.new Lab.smtp_preferred)
      (Lab.machine Lab.api_down) in
  run.1.1 = Ok tt /\ SimpleEmailService.getProviders run.1.2 = ["nodemailer"].
Proof. split; reflexivity. Qed.

(** C4, as stated, fails: an SMTP adapter as its constructor leaves it
    throws from [sendEmail]. *)
Lemma sendEmail_raises_before_initialize :
  (NodemailerProvider.new (T:=unit) tt (Lab.machine Lab.all_up)).1.1 = Ok Lab.fresh_smtp
  /\ (IMailProvider.sendEmail Lab.hello (Nodemailer Lab.fresh_smtp)
        (Lab.machine Lab.all_up)).1.1
     = Throw (mkError "Nodemailer provider not initialized").
Proof. split; reflexivity. Qed.

Lemma sendEmail_returns_when_ready_witness :
  ready (SendGrid (E:=Lab.collaborators) Lab.api_after_one_send) = true
  /\ exists result p' m',
       IMailProvider.sendEmail Lab.hello (SendGrid Lab.api_after_one_send)
         (Lab.machine Lab.api_down) = (Ok result, p', m')
       /\ EmailResult.provider result = "sendgrid".
Proof.
  split; [reflexivity|].
  destruct (sendEmail_returns_when_ready (SendGrid Lab.api_after_one_send) Lab.hello
              (Lab.machine Lab.api_down) eq_refl)
    as (result & p' & m' & Hsend & Hprovider & _).
  exact (ex_intro _ result (ex_intro _ p' (ex_intro _ m' (conj Hsend Hprovider)))).
Defined.

(** The transport failure of C4 on the scripted world: the API refuses the
    request, the result carries the text of the error and the metrics record
    it. *)
Example sendEmail_transport_failure :
  let run :=
    IMailProvider.sendEmail Lab.hello (SendGrid Lab.api_after_one_send)
      (Lab.machine Lab.api_down) in
  transport_fails (SendGrid Lab.api_after_one_send) Lab.hello
    (Lab.machine Lab.api_down) (mkError "Unauthorized")
  /\ run.1.1 = Ok (EmailResult.mk false None None (Some "Unauthorized") 1 "sendgrid"
                     None None)
  /\ Metrics.errorCount (provider_metrics run.1.2) = 1
  /\ Metrics.lastError (provider_metrics run.1.2) = "Unauthorized".
Proof.
  split; [|repeat split; reflexivity].
  eexists. repeat split.
Qed.

(** C5, as stated, fails: the API is down, [verifyConnection] says so, and
    [getHealthStatus] of the API adapter still reports a healthy adapter,
    without calling [verifyConnection] and without touching the world. *)
Lemma api_health_without_connectivity_check :
  let m := Lab.machine Lab.api_down in
  let run := SendGridProvider.getHealthStatus Lab.api_after_one_send m in
  (exists status, run.1.1 = Ok status /\ ProviderHealthStatus.isHealthy status = true)
  /\ calls run.2 = [CallGetHealthStatus "sendgrid"]
  /\ ext run.2 = ext m
  /\ (SendGridProvider.verifyConnection Lab.api_after_one_send m).1.1 = Ok false.
Proof.
  split; [|repeat split; reflexivity].
  eexists. split; reflexivity.
Qed.

(** The doubles of [getHealthStatus] at the edge of 95 in 100: with 19
    successes in 20 attempts the rate is the double 95, which is not above
    95; one attempt away from 95 in 100 of [10^12] attempts the double and
    the exact ratio agree. *)
Example successRate_double_at_95 :
  double_successRate (counted 19 1) = double_of_Z 95
  /\ double_above_95 (counted 19 1) = Qgtb (Metrics.successRate (counted 19 1)) 95
  /\ double_above_95 (counted (95 * 10 ^ 10) (5 * 10 ^ 10)) = false
  /\ Qgtb (Metrics.successRate (counted (95 * 10 ^ 10) (5 * 10 ^ 10))) 95 = false
  /\ double_above_95 (counted (95 * 10 ^ 10 + 1) (5 * 10 ^ 10 - 1)) = true
  /\ Qgtb (Metrics.successRate (counted (95 * 10 ^ 10 + 1) (5 * 10 ^ 10 - 1))) 95 = true
  /\ attempts_in_range (counted (95 * 10 ^ 10 + 1) (5 * 10 ^ 10 - 1)).
Proof.
  split_and!; by vm_compute.
Qed.

(** Why C5 is stated of at most [10^12] attempts: far beyond, the rounding
    decides.  With 1900000000000001 successes and 100000000000000 errors
    more than 95 in 100 attempts succeeded, and the double the code computes
    is 95: the adapter is reported unhealthy. *)
Example successRate_double_beyond_range :
  let m := counted 1900000000000001 100000000000000 in
  Qgtb (Metrics.successRate m) 95 = true
  /\ double_successRate m = double_of_Z 95
  /\ double_above_95 m = false.
Proof. by vm_compute. Qed.

Lemma getHealthStatus_isHealthy_witness :
  attempts_in_range (SendGridProvider.metrics Lab.api_after_one_send)
  /\ (exists status,
        SendGridProvider.getHealthStatus (E:=Lab.collaborators) Lab.api_after_one_send
          (Lab.machine Lab.api_down)
        = (Ok status, Lab.api_after_one_send,
           mkMachine (ext (Lab.machine Lab.api_down))
             (calls (Lab.machine Lab.api_down)
              ++ [CallGetHealthStatus SendGridProvider.name])
             (logs (Lab.machine Lab.api_down)))
        /\ ProviderHealthStatus.isHealthy status
           = SendGridProvider.isInitialized Lab.api_after_one_send
             && Qgtb (Metrics.successRate
                        (SendGridProvider.metrics Lab.api_after_one_send)) 95)
  /\ Qgtb (Metrics.successRate (SendGridProvider.metrics Lab.api_after_one_send)) 95
     = true.
Proof.
  assert (attempts_in_range (SendGridProvider.metrics Lab.api_after_one_send))
    as Hrange by (unfold attempts_in_range; simpl; lia).
  destruct (getHealthStatus_isHealthy (E:=Lab.collaborators)) as (_ & Hapi & Hrate).
  split; [exact Hrange|]. split.
  - exact (Hapi Lab.api_after_one_send (Lab.machine Lab.api_down) Hrange).
  - apply (Hrate _ Hrange). simpl. lia.
Defined.

(** C8, as stated, fails: [initialize] of the SMTP adapter returns on a
    configuration with no host, no user and no password. *)
Lemma smtp_initialize_without_credentials :
  let run :=
    NodemailerProvider.initialize Lab.no_credentials Lab.fresh_smtp
      (Lab.machine Lab.all_up) in
  run.1.1 = Ok tt
  /\ NodemailerProvider.Config.user Lab.no_credentials = None
  /\ NodemailerProvider.Config.password Lab.no_credentials = None
  /\ NodemailerProvider.Config.host Lab.no_credentials = None.
Proof. repeat split; reflexivity. Qed.

Lemma initialize_credentials_witness :
  let config := SendGridProvider.Config.mk None (Some "from@lab") in
  let fresh := SendGridProvider.mk None false (Metrics.initial 1000) in
  truthy_string (SendGridProvider.Config.apiKey config) = false
  /\ SendGridProvider.initialize config fresh (Lab.machine Lab.all_up)
     = (Throw (mkError "SendGrid API key is required"),
        SendGridProvider.set_config (Some config) fresh,
        mkMachine (ext (Lab.machine Lab.all_up))
          (calls (Lab.machine Lab.all_up) ++ [CallInitialize SendGridProvider.name])
          (logs (Lab.machine Lab.all_up))).
Proof.
  intros config fresh. split; [reflexivity|].
  apply (initialize_credentials config fresh (Lab.machine Lab.all_up)).
  reflexivity.
Defined.

Lemma initialize_idempotent_witness :
  SimpleEmailService.initialized (Lab.service Lab.smtp_only) = true
  /\ SimpleEmailService.initialize (Lab.service Lab.smtp_only) (Lab.machine Lab.api_down)
     = (Ok tt, Lab.service Lab.smtp_only, Lab.machine Lab.api_down).
Proof.
  split; [reflexivity|].
  apply (initialize_idempotent (Lab.service Lab.smtp_only) (Lab.machine Lab.api_down)).
  reflexivity.
Defined.

(** C6, as stated, fails: the html that reaches the transport is the whole
    rendered file, directive line included, not the body alone. *)
Lemma template_html_keeps_directive :
  let run :=
    SimpleEmailService.sendTemplateEmail "welcome" Lab.ada (Lab.envelope "ada@lab")
      (Lab.service Lab.smtp_only) (Lab.machine Lab.all_up) in
  (exists result, run.1.1 = Ok result /\ EmailResult.success result = true)
  /\ map MailOptions.subject (Lab.outbox (ext run.2)) = ["Hi Ada"]
  /\ map MailOptions.html (Lab.outbox (ext run.2))
     = [Some ("<!-- SUBJECT: Hi Ada -->" +:+ Lab.LF +:+ "<p>Ada</p>")]
  /\ map MailOptions.html (Lab.outbox (ext run.2)) <> [Some "<p>Ada</p>"].
Proof.
  intros run.
  assert (map MailOptions.html (Lab.outbox (ext run.2))
          = [Some ("<!-- SUBJECT: Hi Ada -->" +:+ Lab.LF +:+ "<p>Ada</p>")]) as Hhtml
    by reflexivity.
  rewrite Hhtml.
  split; [eexists; split; reflexivity|].
  split; [reflexivity|].
  split; [reflexivity|].
  clear. intros Heq. vm_compute in Heq. discriminate Heq.
Qed.

Lemma sendTemplateEmail_subject_and_body_witness :
  ascii_only Lab.welcome_html = true
  /\ ascii_only Lab.plain_html = true
  /\ SimpleEmailService.sendTemplateEmail "welcome" Lab.ada (Lab.envelope "ada@lab")
       (Lab.service Lab.smtp_only) (Lab.machine Lab.all_up)
     = SimpleEmailService.sendEmail
         (SimpleEmailService.with_subject_html (Lab.envelope "ada@lab") "Hi Ada"
            ("<!-- SUBJECT: Hi Ada -->" +:+ Lab.LF +:+ "<p>Ada</p>"))
         (Lab.service Lab.smtp_only) (Lab.machine Lab.all_up)
  /\ SimpleEmailService.sendTemplateEmail "plain" Lab.ada (Lab.envelope "ada@lab")
       (Lab.service Lab.smtp_only) (Lab.machine Lab.all_up)
     = SimpleEmailService.sendEmail
         (SimpleEmailService.with_subject_html (Lab.envelope "ada@lab")
            "Email Notification" "<p>Ada</p>")
         (Lab.service Lab.smtp_only) (Lab.machine Lab.all_up).
Proof.
  split; [reflexivity|]. split; [reflexivity|].
  split.
  - exact (proj1 (proj1 (sendTemplateEmail_subject_and_body (E:=Lab.collaborators))
                    (Lab.service Lab.smtp_only) "welcome" Lab.ada (Lab.envelope "ada@lab")
                    (Lab.machine Lab.all_up) Lab.welcome_html Lab.all_up
                    ("<!-- SUBJECT: Hi Ada -->" +:+ Lab.LF +:+ "<p>Ada</p>")
                    eq_refl eq_refl eq_refl) "Hi {{name}}" "Hi Ada" eq_refl eq_refl).
  - exact (proj2 (proj1 (sendTemplateEmail_subject_and_body (E:=Lab.collaborators))
                    (Lab.service Lab.smtp_only) "plain" Lab.ada (Lab.envelope "ada@lab")
                    (Lab.machine Lab.all_up) Lab.plain_html Lab.all_up "<p>Ada</p>"
                    eq_refl eq_refl eq_refl) eq_refl).
Defined.


(** The missing template on the scripted world: the result, and the
    adapter that did not run. *)
Example sendTemplateEmail_missing_file :
  let run :=
    SimpleEmailService.sendTemplateEmail "missing" Lab.ada (Lab.envelope "ada@lab")
      (Lab.service Lab.smtp_only) (Lab.machine Lab.all_up) in
  run.1.1
  = Ok (EmailResult.mk false None None
          (Some "Template loading failed: ENOENT: no such file or directory, open './templates/missing.html'")
          0 "template-loader" None None)
  /\ calls run.2 = []
  /\ Lab.outbox (ext run.2) = [].
Proof. repeat split; reflexivity. Qed.


(** * Further properties of the code *)

(** ** The adapters, method by method *)

Section AdapterMethods.
Context {E : Collaborators}.

Lemma warnings_app (l1 l2 : list (LogLevel * string)) :
  warnings (l1 ++ l2) = (warnings l1 ++ warnings l2)%list.
Proof. unfold warnings. apply omap_app. Qed.

(** What [sendEmail] of an adapter keeps, whatever its completion. *)
Lemma sendEmail_keeps (p : Provider E) options m :
  let '(r, p', m') := IMailProvider.sendEmail options p m in
  ready p' = ready p
  /\ IMailProvider.name p' = IMailProvider.name p
  /\ IMailProvider.priority p' = IMailProvider.priority p
  /\ warnings (logs m') = warnings (logs m)
  /\ (metrics_consistent (provider_metrics p) -> metrics_consistent (provider_metrics p'))
  /\ match r with
     | Ok _ => ready p = true
               /\ attempts (provider_metrics p') = attempts (provider_metrics p) + 1
     | Throw _ => ready p = false /\ provider_metrics p' = provider_metrics p
     end.
Proof.
  destruct p as [[tr cfg mt]|[cfg init mt]];
    cbn [IMailProvider.sendEmail Provider_IMailProvider IMailProvider.name
         IMailProvider.priority];
    unfold NodemailerProvider.sendEmail, NodemailerProvider.updateMetrics,
      SendGridProvider.sendEmail, SendGridProvider.updateMetrics,
      metrics_consistent, attempts; run; simpl;
    repeat branch; simplify_eq /=;
    rewrite ?warnings_app, ?app_nil_r; simpl;
    repeat split; auto; try lia; try (intros (? & ? & ? & ?); repeat split; lia);
    by destruct init.
Qed.

(** [verifyConnection] and [getHealthStatus] of an adapter return, and leave
    the adapter as it is. *)
Lemma verifyConnection_keeps (p : Provider E) m :
  let '(r, p', m') := IMailProvider.verifyConnection p m in
  p' = p
  /\ warnings (logs m') = warnings (logs m)
  /\ calls m' = (calls m ++ [CallVerifyConnection (IMailProvider.name p)])%list
  /\ exists connected,
       r = Ok connected
       /\ (ready p = false -> connected = false /\ ext m' = ext m /\ logs m' = logs m).
Proof.
  destruct p as [[tr cfg mt]|[cfg init mt]];
    cbn [IMailProvider.verifyConnection Provider_IMailProvider IMailProvider.name];
    unfold NodemailerProvider.verifyConnection, SendGridProvider.verifyConnection;
    run; simpl; repeat branch; simplify_eq /=;
    rewrite ?warnings_app, ?app_nil_r; simpl;
    repeat split; auto; eexists; (split; [reflexivity|]); try done;
    by destruct init.
Qed.

Lemma getHealthStatus_keeps (p : Provider E) m :
  let '(r, p', m') := IMailProvider.getHealthStatus p m in
  p' = p
  /\ warnings (logs m') = warnings (logs m)
  /\ exists status,
       r = Ok status
       /\ (ProviderHealthStatus.isHealthy status = true ->
           ready p = true
           /\ Qgtb (Metrics.successRate (provider_metrics p)) 95 = true)
       /\ ProviderHealthStatus.errorCount status = Metrics.errorCount (provider_metrics p)
       /\ ProviderHealthStatus.successRate status
          = Metrics.successRate (provider_metrics p)
       /\ ProviderHealthStatus.metrics status
          = HealthMetrics.mk (Metrics.sentToday (provider_metrics p))
              (Metrics.sentThisHour (provider_metrics p)) 0.
Proof.
  destruct p as [[tr cfg mt]|[cfg init mt]];
    cbn [IMailProvider.getHealthStatus Provider_IMailProvider IMailProvider.name];
    unfold NodemailerProvider.getHealthStatus, NodemailerProvider.verifyConnection,
      SendGridProvider.getHealthStatus;
    run; simpl; repeat branch; simplify_eq /=;
    rewrite ?warnings_app, ?app_nil_r; simpl;
    repeat split; auto; eexists; (split; [reflexivity|]); simpl;
    repeat split; auto; try done;
    by match goal with
       | H : _ && _ = true |- _ => apply andb_prop in H as [? ?]
       end.
Qed.

Lemma shutdown_keeps (p : Provider E) m :
  let '(r, p', m') := IMailProvider.shutdown p m in
  r = Ok tt
  /\ provider_metrics p' = provider_metrics p
  /\ IMailProvider.name p' = IMailProvider.name p.
Proof.
  destruct p as [[tr cfg mt]|[cfg init mt]];
    cbn [IMailProvider.shutdown Provider_IMailProvider IMailProvider.name];
    unfold NodemailerProvider.shutdown, SendGridProvider.shutdown;
    run; simpl; repeat branch; simplify_eq /=; done.
Qed.

End AdapterMethods.

Section AdapterProperties.
Context {E : Collaborators}.

(** X1.  The metrics of an adapter stay consistent: its constructor makes
    them so, and [initialize], [sendEmail], [verifyConnection],
    [getHealthStatus] and [shutdown] keep them so: the counters never go
    below zero, and [sentToday] and [sentThisHour] always equal
    [successCount] (they are never reset). *)
Theorem metrics_stay_consistent :
  (forall m : Machine E,
     (forall p, (NodemailerProvider.new (T:=unit) tt m).1.1 = Ok p ->
                metrics_consistent (NodemailerProvider.metrics p))
     /\ (forall p, (SendGridProvider.new (T:=unit) tt m).1.1 = Ok p ->
                   metrics_consistent (SendGridProvider.metrics p)))
  /\ (forall (p : NodemailerProvider.t E) config m,
        NodemailerProvider.metrics (NodemailerProvider.initialize config p m).1.2
        = NodemailerProvider.metrics p)
  /\ (forall (p : SendGridProvider.t) config (m : Machine E),
        SendGridProvider.metrics (SendGridProvider.initialize config p m).1.2
        = SendGridProvider.metrics p)
  /\ (forall (p : Provider E) (m : Machine E),
        metrics_consistent (provider_metrics p) ->
        (forall options,
           metrics_consistent
             (provider_metrics (IMailProvider.sendEmail options p m).1.2))
        /\ metrics_consistent (provider_metrics (IMailProvider.verifyConnection p m).1.2)
        /\ metrics_consistent (provider_metrics (IMailProvider.getHealthStatus p m).1.2)
        /\ metrics_consistent (provider_metrics (IMailProvider.shutdown p m).1.2)).
Proof.
  split; [|split; [|split]].
  - intros m. unfold NodemailerProvider.new, SendGridProvider.new. run.
    split; intros p; simpl; repeat branch; simpl;
      intros Hp; simplify_eq; unfold metrics_consistent; simpl; lia.
  - intros [tr cfg mt] config m. unfold NodemailerProvider.initialize. run. simpl.
    by repeat branch.
  - intros [cfg init mt] config m. unfold SendGridProvider.initialize. run. simpl.
    by repeat branch.
  - intros p m Hp. split; [|split; [|split]].
    + intros options. pose proof (sendEmail_keeps p options m) as H.
      destruct (IMailProvider.sendEmail options p m) as [[r p'] m'].
      by apply H.
    + pose proof (verifyConnection_keeps p m) as H.
      destruct (IMailProvider.verifyConnection p m) as [[r p'] m'].
      by destruct H as [-> _].
    + pose proof (getHealthStatus_keeps p m) as H.
      destruct (IMailProvider.getHealthStatus p m) as [[r p'] m'].
      by destruct H as [-> _].
    + pose proof (shutdown_keeps p m) as H.
      destruct (IMailProvider.shutdown p m) as [[r p'] m'].
      destruct H as (_ & Hm & _). simpl. by rewrite Hm.
Qed.

(** X2.  [getHealthStatus] returns for every adapter and leaves it as it is.
    An adapter is reported healthy only with successes on record, and more
    than nineteen of them for each recorded error: an adapter that has not
    sent anything yet is reported unhealthy, whatever its connection. *)
Theorem getHealthStatus_needs_successes (p : Provider E) (m : Machine E) :
  exists status m',
    IMailProvider.getHealthStatus p m = (Ok status, p, m')
    /\ (ProviderHealthStatus.isHealthy status = true ->
        ready p = true
        /\ 0 < attempts (provider_metrics p)
        /\ 19 * Metrics.errorCount (provider_metrics p)
           < Metrics.successCount (provider_metrics p))
    /\ (attempts (provider_metrics p) = 0 ->
        ProviderHealthStatus.isHealthy status = false).
Proof.
  pose proof (getHealthStatus_keeps p m) as H.
  destruct (IMailProvider.getHealthStatus p m) as [[r p'] m'].
  destruct H as (-> & _ & status & -> & Hhealthy & _).
  exists status, m'. split; [done|]. unfold attempts. split.
  - intros [Hready Hrate%successRate_above_95]%Hhealthy. split; [done|]. lia.
  - intros Hnone. apply not_true_is_false.
    intros [_ Hrate%successRate_above_95]%Hhealthy. lia.
Qed.

(** X3.  [verifyConnection] returns for every adapter and leaves it as it
    is (what it sends is counted in no metric); on an adapter that did not go
    through [initialize] the answer is [false] and no library is called. *)
Theorem verifyConnection_leaves_adapter (p : Provider E) (m : Machine E) :
  exists connected m',
    IMailProvider.verifyConnection p m = (Ok connected, p, m')
    /\ (ready p = false -> connected = false /\ ext m' = ext m).
Proof.
  pose proof (verifyConnection_keeps p m) as H.
  destruct (IMailProvider.verifyConnection p m) as [[r p'] m'].
  destruct H as (-> & _ & _ & connected & -> & Hoff).
  exists connected, m'. split; [done|]. intros Hp. by destruct (Hoff Hp) as (? & ? & _).
Qed.

(** X4.  [verifyConnection] of an initialized API adapter sends a message:
    the test email, addressed to the configured sender itself; the answer
    is whether that send returned. *)
Theorem api_verifyConnection_sends_to_itself
  (p : SendGridProvider.t) (m : Machine E) config :
  SendGridProvider.isInitialized p = true ->
  SendGridProvider.config p = Some config ->
  let from := SendGridProvider.Config.from config in
  let sent := send E (SendGridProvider.testMail from) (ext m) in
  exists m',
    SendGridProvider.verifyConnection p m
    = (Ok (match sent.1 with Ok _ => true | Throw _ => false end), p, m')
    /\ ext m' = sent.2
    /\ MailData.from (SendGridProvider.testMail from) = from
    /\ MailData.to (SendGridProvider.testMail from) = One <$> from.
Proof.
  destruct p as [cfg init mt]; simpl. intros -> ->.
  unfold SendGridProvider.verifyConnection. run. simpl.
  destruct (send E _ (ext m)) as [[response|error] w]; simpl; by eexists.
Qed.

(** X5.  [shutdown] of the API adapter disables it and keeps its metrics
    and configuration: afterwards [sendEmail] throws, [verifyConnection]
    answers [false] without sending, [getHealthStatus] reports an unhealthy
    adapter, another [shutdown] changes nothing, and [initialize] with an
    API key enables the adapter again. *)
Theorem api_shutdown_disables (p : SendGridProvider.t) (m : Machine E) :
  let p' := (SendGridProvider.shutdown p m).1.2 in
  (SendGridProvider.shutdown p m).1.1 = Ok tt
  /\ SendGridProvider.metrics p' = SendGridProvider.metrics p
  /\ SendGridProvider.config p' = SendGridProvider.config p
  /\ (forall options (m2 : Machine E),
        (SendGridProvider.sendEmail options p' m2).1
        = (Throw (mkError "SendGrid provider not initialized"), p'))
  /\ (forall m2 : Machine E,
        (SendGridProvider.verifyConnection p' m2).1 = (Ok false, p')
        /\ ext (SendGridProvider.verifyConnection p' m2).2 = ext m2)
  /\ (forall m2 : Machine E,
        exists status,
          (SendGridProvider.getHealthStatus p' m2).1 = (Ok status, p')
          /\ ProviderHealthStatus.isHealthy status = false)
  /\ (forall m2 : Machine E, (SendGridProvider.shutdown p' m2).1 = (Ok tt, p'))
  /\ (forall config (m2 : Machine E),
        truthy_string (SendGridProvider.Config.apiKey config) = true ->
        (SendGridProvider.initialize config p' m2).1.1 = Ok tt
        /\ SendGridProvider.isInitialized (SendGridProvider.initialize config p' m2).1.2
           = true).
Proof.
  destruct p as [cfg init mt].
  unfold SendGridProvider.shutdown, SendGridProvider.sendEmail,
    SendGridProvider.verifyConnection, SendGridProvider.getHealthStatus,
    SendGridProvider.initialize, truthy_string.
  run. simpl. repeat split.
  - intros options m2. by destruct (Date_now E (ext m2)).
  - by eexists.
  - destruct (SendGridProvider.Config.apiKey config) as [key|]; [|done].
    by destruct (String.eqb key EmptyString).
  - destruct (SendGridProvider.Config.apiKey config) as [key|]; [|done].
    by destruct (String.eqb key EmptyString).
Qed.

Lemma successRate_range (mt : Metrics.t) :
  0 <= Metrics.successCount mt -> 0 <= Metrics.errorCount mt ->
  (0 <= Metrics.successRate mt)%Q /\ (Metrics.successRate mt <= 100)%Q
  /\ (0 < attempts mt -> Metrics.errorCount mt = 0 -> (Metrics.successRate mt == 100)%Q).
Proof.
  intros Hs He. unfold Metrics.successRate, attempts.
  destruct (0 <? Metrics.successCount mt + Metrics.errorCount mt) eqn:Hpos.
  - apply Z.ltb_lt in Hpos.
    destruct (Metrics.successCount mt + Metrics.errorCount mt) as [|total|total] eqn:Ht;
      [lia| |lia].
    unfold Qle, Qeq, Qdiv, Qmult, Qinv, inject_Z; simpl.
    rewrite ?Pos.mul_1_r. split_and!; lia.
  - apply Z.ltb_ge in Hpos. split_and!; [done|done|lia].
Qed.

(** X17.  What [getHealthStatus] reports of an adapter with consistent
    metrics: a success rate between 0 and 100 (100 when there are attempts
    and none failed), the adapter's [errorCount], an empty queue, and the
    same number, [successCount], as sent today and sent this hour. *)
Theorem getHealthStatus_reports_metrics (p : Provider E) (m : Machine E) :
  metrics_consistent (provider_metrics p) ->
  exists status,
    (IMailProvider.getHealthStatus p m).1.1 = Ok status
    /\ (0 <= ProviderHealthStatus.successRate status)%Q
    /\ (ProviderHealthStatus.successRate status <= 100)%Q
    /\ (0 < attempts (provider_metrics p) ->
        Metrics.errorCount (provider_metrics p) = 0 ->
        (ProviderHealthStatus.successRate status == 100)%Q)
    /\ ProviderHealthStatus.errorCount status = Metrics.errorCount (provider_metrics p)
    /\ ProviderHealthStatus.metrics status
       = HealthMetrics.mk (Metrics.successCount (provider_metrics p))
           (Metrics.successCount (provider_metrics p)) 0.
Proof.
  intros (Hs & He & Htoday & Hhour).
  pose proof (getHealthStatus_keeps p m) as H.
  destruct (IMailProvider.getHealthStatus p m) as [[r p'] m'].
  destruct H as (_ & _ & status & -> & _ & Herrors & Hrate & Hmetrics).
  destruct (successRate_range (provider_metrics p) Hs He) as (H0 & H100 & Hall).
  exists status. simpl. rewrite Hrate, Herrors, Hmetrics, Htoday, Hhour. by split_and!.
Qed.

(** X18.  Every feature the SMTP adapter declares, the API adapter declares
    too; the API adapter declares every feature but [SCHEDULING], which
    neither declares; the SMTP adapter declares [BULK_SEND] and no
    [TEMPLATES]. *)
Theorem supportsFeature_api_covers_smtp :
  (forall feature,
     NodemailerProvider.supportsFeature feature = true ->
     SendGridProvider.supportsFeature feature = true)
  /\ (forall feature,
        SendGridProvider.supportsFeature feature = false <-> feature = SCHEDULING)
  /\ NodemailerProvider.supportsFeature BULK_SEND = true
  /\ NodemailerProvider.supportsFeature TEMPLATES = false.
Proof.
  split_and!; try done.
  - by intros [].
  - intros []; split; intros H; try done; by vm_compute in H.
Qed.

End AdapterProperties.

(** ** The SMTP adapter: [shutdown] and [sendBulkEmails] *)

Section SmtpAdapter.
Context {E : Collaborators}.

(** One [sendEmail] of the SMTP adapter. *)
Lemma smtp_sendEmail_step (p : NodemailerProvider.t E) options m :
  let '(r, p', m') := NodemailerProvider.sendEmail options p m in
  NodemailerProvider.transporter p' = NodemailerProvider.transporter p
  /\ NodemailerProvider.config p' = NodemailerProvider.config p
  /\ calls m' = (calls m ++ [CallSendEmail NodemailerProvider.name options])%list
  /\ match r with
     | Ok result =>
       NodemailerProvider.transporter p <> None
       /\ EmailResult.provider result = NodemailerProvider.name
       /\ Metrics.successCount (NodemailerProvider.metrics p')
          = Metrics.successCount (NodemailerProvider.metrics p)
            + (if EmailResult.success result then 1 else 0)
       /\ Metrics.errorCount (NodemailerProvider.metrics p')
          = Metrics.errorCount (NodemailerProvider.metrics p)
            + (if EmailResult.success result then 0 else 1)
     | Throw error =>
       NodemailerProvider.transporter p = None
       /\ p' = p
       /\ error = mkError "Nodemailer provider not initialized"
     end.
Proof.
  destruct p as [tr cfg mt].
  unfold NodemailerProvider.sendEmail, NodemailerProvider.updateMetrics. run. simpl.
  repeat branch; simplify_eq /=; repeat split; auto; lia.
Qed.



Lemma successes_app (l1 l2 : list EmailResult.t) :
  successes (l1 ++ l2) = successes l1 + successes l2.
Proof. unfold successes. rewrite filter_app, length_app. lia. Qed.

Lemma failures_app (l1 l2 : list EmailResult.t) :
  failures (l1 ++ l2) = failures l1 + failures l2.
Proof. unfold failures. rewrite filter_app, length_app. lia. Qed.

Lemma successes_cons (r : EmailResult.t) (l : list EmailResult.t) :
  successes (r :: l) = (if EmailResult.success r then 1 else 0) + successes l.
Proof.
  unfold successes. rewrite filter_cons.
  destruct (EmailResult.success r); case_decide; simpl; try done; lia.
Qed.

Lemma failures_cons (r : EmailResult.t) (l : list EmailResult.t) :
  failures (r :: l) = (if EmailResult.success r then 0 else 1) + failures l.
Proof.
  unfold failures. rewrite filter_cons.
  destruct (EmailResult.success r); case_decide; simpl; try done; lia.
Qed.

Lemma successes_failures (l : list EmailResult.t) :
  successes l + failures l = Z.of_nat (length l).
Proof.
  unfold successes, failures. induction l as [|r l IH]; [done|].
  rewrite !filter_cons. destruct (EmailResult.success r) eqn:Hr; simpl.
  - destruct (decide (true = true)), (decide (true = false)); simpl; try done; lia.
  - destruct (decide (false = true)), (decide (false = false)); simpl; try done; lia.
Qed.

Lemma smtp_bulk_loop (setTimeout : Z -> world E -> world E)
  (emails : list EmailOptions.t) :
  forall results (p : NodemailerProvider.t E) m,
    let '(r, p', m') :=
      NodemailerProvider.sendBulkEmails_loop setTimeout emails results p m in
    exists new,
      r = Ok (results ++ new)%list
      /\ length new = length emails
      /\ calls m' = (calls m ++ map (CallSendEmail NodemailerProvider.name) emails)%list
      /\ NodemailerProvider.transporter p' = NodemailerProvider.transporter p
      /\ Forall (fun r => EmailResult.provider r = NodemailerProvider.name) new
      /\ (NodemailerProvider.transporter p <> None ->
          Metrics.successCount (NodemailerProvider.metrics p')
          = Metrics.successCount (NodemailerProvider.metrics p) + successes new
          /\ Metrics.errorCount (NodemailerProvider.metrics p')
             = Metrics.errorCount (NodemailerProvider.metrics p) + failures new)
      /\ (NodemailerProvider.transporter p = None ->
          p' = p
          /\ new = map (fun _ => bulk_failure (mkError "Nodemailer provider not initialized"))
                      emails).
Proof.
  induction emails as [|email emails IH]; intros results p m;
    cbn [NodemailerProvider.sendBulkEmails_loop].
  - unfold ret. exists []. rewrite !app_nil_r. repeat split; auto.
    + unfold successes. simpl. lia.
    + unfold failures. simpl. lia.
  - unfold bind at 1, try_catch, bind at 1.
    pose proof (smtp_sendEmail_step p email m) as Hstep.
    destruct (NodemailerProvider.sendEmail email p m) as [[[result|error] p1] m1].
    + destruct Hstep as (Htr & Hcfg & Hcalls & Hready & Hprovider & Hs & He).
      unfold NodemailerProvider.delay, bind, library_total, ret. simpl.
      set (m1' := mkMachine _ _ _).
      specialize (IH (results ++ [result])%list p1 m1').
      destruct (NodemailerProvider.sendBulkEmails_loop setTimeout emails
                  (results ++ [result]) p1 m1') as [[r p'] m'].
      destruct IH as (new & -> & Hlen & Hlog & Htr' & Hall & Hcount & Hnone).
      exists (result :: new). repeat split.
      * by rewrite <- app_assoc.
      * simpl. by rewrite Hlen.
      * rewrite Hlog. subst m1'. simpl. rewrite Hcalls. by rewrite <- app_assoc.
      * by rewrite Htr'.
      * by constructor.
      * rewrite successes_cons.
        destruct Hcount as [-> _]; [by rewrite Htr|]. rewrite Hs. lia.
      * rewrite failures_cons.
        destruct Hcount as [_ ->]; [by rewrite Htr|]. rewrite He. lia.
      * contradiction.
      * contradiction.
    + destruct Hstep as (Htr & Hcfg & Hcalls & Hnone & -> & ->).
      unfold ret.
      specialize (IH (results ++ [bulk_failure (mkError "Nodemailer provider not initialized")])%list p m1).
      unfold bulk_failure in IH at 1. simpl in IH.
      destruct (NodemailerProvider.sendBulkEmails_loop setTimeout emails _ p m1)
        as [[r p'] m'].
      destruct IH as (new & -> & Hlen & Hlog & Htr' & Hall & Hcount & Hoff).
      exists (bulk_failure (mkError "Nodemailer provider not initialized") :: new).
      repeat split.
      * by rewrite <- app_assoc.
      * simpl. by rewrite Hlen.
      * rewrite Hlog, Hcalls. by rewrite <- app_assoc.
      * done.
      * by constructor.
      * contradiction.
      * contradiction.
      * by apply Hoff.
      * simpl. f_equal. by apply Hoff.
Qed.

(** X7.  [sendBulkEmails] of the SMTP adapter returns (it does not throw)
    one result per message, each naming the adapter, after one [sendEmail]
    per message in the order of the messages.  On an adapter that did not go
    through [initialize] every result is a failure with the text of the
    [not initialized] error and duration 0, and the adapter is left as it
    is. *)
Theorem smtp_sendBulkEmails_one_result_each (setTimeout : Z -> world E -> world E)
  (emails : list EmailOptions.t) (p : NodemailerProvider.t E) (m : Machine E) :
  exists results p' m',
    NodemailerProvider.sendBulkEmails setTimeout emails p m = (Ok results, p', m')
    /\ length results = length emails
    /\ Forall (fun r => EmailResult.provider r = NodemailerProvider.name) results
    /\ calls m' = (calls m ++ map (CallSendEmail NodemailerProvider.name) emails)%list
    /\ (NodemailerProvider.transporter p = None ->
        p' = p
        /\ results
           = map (fun _ => EmailResult.mk false None None
                             (Some "Nodemailer provider not initialized") 0
                             NodemailerProvider.name None None) emails).
Proof.
  unfold NodemailerProvider.sendBulkEmails.
  pose proof (smtp_bulk_loop setTimeout emails [] p m) as H.
  destruct (NodemailerProvider.sendBulkEmails_loop setTimeout emails [] p m)
    as [[r p'] m'].
  destruct H as (new & -> & Hlen & Hlog & _ & Hall & _ & Hoff).
  by exists new, p', m'.
Qed.

(** X8.  [sendBulkEmails] of an initialized SMTP adapter accounts for every
    message in the metrics: [successCount] grows by the number of results
    with [success = true], [errorCount] by the number of the others, and
    the two numbers add up to the number of messages. *)
Theorem smtp_sendBulkEmails_accounts (setTimeout : Z -> world E -> world E)
  (emails : list EmailOptions.t) (p : NodemailerProvider.t E) (m : Machine E) :
  NodemailerProvider.transporter p <> None ->
  exists results p' m',
    NodemailerProvider.sendBulkEmails setTimeout emails p m = (Ok results, p', m')
    /\ Metrics.successCount (NodemailerProvider.metrics p')
       = Metrics.successCount (NodemailerProvider.metrics p) + successes results
    /\ Metrics.errorCount (NodemailerProvider.metrics p')
       = Metrics.errorCount (NodemailerProvider.metrics p) + failures results
    /\ successes results + failures results = Z.of_nat (length emails).
Proof.
  intros Hready. unfold NodemailerProvider.sendBulkEmails.
  pose proof (smtp_bulk_loop setTimeout emails [] p m) as H.
  destruct (NodemailerProvider.sendBulkEmails_loop setTimeout emails [] p m)
    as [[r p'] m'].
  destruct H as (new & -> & Hlen & _ & _ & _ & Hcount & _).
  destruct (Hcount Hready) as [Hs He].
  exists new, p', m'. repeat split; auto.
  by rewrite successes_failures, Hlen.
Qed.

End SmtpAdapter.

(** ** The orchestrator: what it keeps *)

Section OrchestratorFacts.
Context {E : Collaborators}.

Lemma try_providers_keeps options (ps : list (Provider E)) :
  forall m,
    let '(found, ps', m') := SimpleEmailService.try_providers options ps m in
    map IMailProvider.name ps' = map IMailProvider.name ps
    /\ map IMailProvider.priority ps' = map IMailProvider.priority ps
    /\ map ready ps' = map ready ps
    /\ (Forall (fun p => ready p = true) ps ->
        warnings (logs m') = warnings (logs m)
        /\ exists tried : nat,
             length (calls m') = (length (calls m) + tried)%nat
             /\ total_attempts ps' = total_attempts ps + Z.of_nat tried).
Proof.
  induction ps as [|p rest IH]; intros m; cbn [SimpleEmailService.try_providers].
  - split_and!; auto. intros _. split; [done|].
    exists 0%nat. split; [lia|]. simpl. lia.
  - pose proof (sendEmail_keeps p options m) as Hkeep.
    pose proof (sendEmail_calls p options m) as Hcalls.
    destruct (IMailProvider.sendEmail options p m) as [[[result|error] p'] m1];
      cbn beta iota zeta in Hkeep, Hcalls;
      destruct Hkeep as (Hready & Hname & Hprio & Hwarn & _ & Hcase);
      destruct Hcalls as [Hcalls _].
    + destruct Hcase as [Hp Hattempts].
      destruct (EmailResult.success result).
      * cbn [map]. rewrite Hname, Hprio, Hready. split_and!; auto.
        intros _. split; [done|].
        exists 1%nat. rewrite Hcalls, length_app. simpl. split; lia.
      * specialize (IH m1).
        destruct (SimpleEmailService.try_providers options rest m1)
          as [[found rest'] m2].
        destruct IH as (Hnames & Hprios & Hreadys & Hall).
        cbn [map]. rewrite Hname, Hprio, Hready, Hnames, Hprios, Hreadys.
        split_and!; auto.
        intros [_ Hrest]%Forall_cons.
        destruct (Hall Hrest) as [-> (tried & Hlen & Htotal)]. split; [done|].
        exists (S tried). rewrite Hlen, Hcalls, length_app. simpl.
        split; lia.
    + destruct Hcase as [Hp Hmetrics].
      set (m1' := log_line LogWarn _ m1).
      specialize (IH m1').
      destruct (SimpleEmailService.try_providers options rest m1')
        as [[found rest'] m2].
      destruct IH as (Hnames & Hprios & Hreadys & Hall).
      cbn [map]. rewrite Hname, Hprio, Hready, Hnames, Hprios, Hreadys.
      split_and!; auto. intros [Hhead _]%Forall_cons. congruence.
Qed.

Lemma initialize_nodemailer_ready (s : SimpleEmailService.t E) m :
  Forall (fun p => ready p = true) (SimpleEmailService.providers s) ->
  Forall (fun p => ready p = true)
    (SimpleEmailService.providers (SimpleEmailService.initialize_nodemailer s m).1.2).
Proof.
  unfold SimpleEmailService.initialize_nodemailer, SimpleEmailService.push,
    NodemailerProvider.new, NodemailerProvider.initialize,
    NodemailerProvider.verifyConnection.
  run. destruct s as [ps init cfg]; simpl. intros Hps.
  repeat branch; simplify_eq /=; auto.
  apply Forall_app. split; [done|]. by repeat constructor.
Qed.

Lemma initialize_sendgrid_ready (s : SimpleEmailService.t E) m :
  Forall (fun p => ready p = true) (SimpleEmailService.providers s) ->
  Forall (fun p => ready p = true)
    (SimpleEmailService.providers (SimpleEmailService.initialize_sendgrid s m).1.2).
Proof.
  unfold SimpleEmailService.initialize_sendgrid, SimpleEmailService.push,
    SendGridProvider.new, SendGridProvider.initialize,
    SendGridProvider.verifyConnection.
  run. destruct s as [ps init cfg]; simpl. intros Hps.
  repeat branch; simplify_eq /=; auto.
  apply Forall_app. split; [done|]. by repeat constructor.
Qed.

(** The completion of [initialize], from any state. *)
Lemma initialize_outcome (s : SimpleEmailService.t E) m :
  let '(r, s', m') := SimpleEmailService.initialize s m in
  SimpleEmailService.config s' = SimpleEmailService.config s
  /\ (Forall (fun p => ready p = true) (SimpleEmailService.providers s) ->
      Forall (fun p => ready p = true) (SimpleEmailService.providers s'))
  /\ match r with
     | Ok _ => SimpleEmailService.initialized s' = true
               /\ (SimpleEmailService.initialized s = true -> s' = s /\ m' = m)
     | Throw error =>
       SimpleEmailService.initialized s = false
       /\ SimpleEmailService.initialized s' = false
       /\ SimpleEmailService.providers s' = []
       /\ error = mkError "No mail providers could be initialized"
     end.
Proof.
  unfold SimpleEmailService.initialize. run.
  destruct (SimpleEmailService.initialized s) eqn:Hinit.
  { by split_and!. }
  pose proof (initialize_nodemailer_spec s m) as Hn.
  pose proof (initialize_nodemailer_ready s m) as Hnr.
  destruct (SimpleEmailService.initialize_nodemailer s m) as [[r1 s1] m1].
  cbn beta iota zeta in Hn. destruct Hn as (Hr1 & Hi1 & Hc1 & _). subst r1.
  pose proof (initialize_sendgrid_spec s1 m1) as Hs.
  pose proof (initialize_sendgrid_ready s1 m1) as Hsr.
  destruct (SimpleEmailService.initialize_sendgrid s1 m1) as [[r2 s2] m2].
  cbn beta iota zeta in Hs. destruct Hs as (Hr2 & Hi2 & Hc2 & _). subst r2.
  simpl in Hnr, Hsr.
  destruct s2 as [ps2 init2 cfg2]; simpl in *. subst init2 cfg2.
  destruct ps2 as [|p ps2]; simpl.
  - split_and!; auto; congruence.
  - split_and!; auto; [| congruence].
    intros Hps.
    change (sort_insert SimpleEmailService.by_priority p
              (Array_sort SimpleEmailService.by_priority ps2))
      with (Array_sort (descending sort_key) (p :: ps2)).
    rewrite (Array_sort_Permutation sort_key (p :: ps2)). auto.
Qed.

End OrchestratorFacts.

Section OrchestratorProperties.
Context {E : Collaborators}.

Lemma Forall_by_key {A B} (f : A -> B) (Q : B -> Prop) (l l' : list A) :
  map f l' = map f l ->
  Forall (fun b => Q (f b)) l -> Forall (fun b => Q (f b)) l'.
Proof.
  intros Hmap Hall. revert l' Hmap.
  induction Hall as [|p ps Hp Hps IH]; intros [|p' ps'] Hmap;
    try discriminate; constructor.
  - injection Hmap as Hp' _. by rewrite Hp'.
  - apply IH. by injection Hmap.
Qed.

Lemma sorted_by_key {A} (f : A -> Z) (l l' : list A) :
  map f l' = map f l ->
  StronglySorted (fun a b => f b <= f a) l ->
  StronglySorted (fun a b => f b <= f a) l'.
Proof.
  intros Hmap Hsorted. revert l' Hmap.
  induction Hsorted as [|p ps Hps IH Hall]; intros [|p' ps'] Hmap;
    try discriminate; constructor.
  - apply IH. by injection Hmap.
  - injection Hmap as Hp Hps'. rewrite Hp.
    by apply (Forall_by_key f (fun x => x <= f p) ps).
Qed.

Lemma sorted_by_priority (ps ps' : list (Provider E)) :
  map IMailProvider.priority ps' = map IMailProvider.priority ps ->
  StronglySorted (fun a b => IMailProvider.priority b <= IMailProvider.priority a) ps ->
  StronglySorted (fun a b => IMailProvider.priority b <= IMailProvider.priority a) ps'.
Proof. apply (sorted_by_key IMailProvider.priority). Qed.

Lemma ready_by_map (ps ps' : list (Provider E)) :
  map ready ps' = map ready ps ->
  Forall (fun p => ready p = true) ps -> Forall (fun p => ready p = true) ps'.
Proof.
  apply (Forall_by_key ready (fun b => b = true)).
Qed.

Lemma sendEmail_initialized (s : SimpleEmailService.t E) options m :
  SimpleEmailService.initialized s = true ->
  let '(r, s', m') := SimpleEmailService.sendEmail options s m in
  (exists result, r = Ok result)
  /\ SimpleEmailService.initialized s' = true
  /\ SimpleEmailService.config s' = SimpleEmailService.config s
  /\ map IMailProvider.name (SimpleEmailService.providers s')
     = map IMailProvider.name (SimpleEmailService.providers s)
  /\ map IMailProvider.priority (SimpleEmailService.providers s')
     = map IMailProvider.priority (SimpleEmailService.providers s)
  /\ map ready (SimpleEmailService.providers s')
     = map ready (SimpleEmailService.providers s)
  /\ (Forall (fun p => ready p = true) (SimpleEmailService.providers s) ->
      warnings (logs m') = warnings (logs m)
      /\ exists tried : nat,
           length (calls m') = (length (calls m) + tried)%nat
           /\ total_attempts (SimpleEmailService.providers s')
              = total_attempts (SimpleEmailService.providers s) + Z.of_nat tried).
Proof.
  intros Hinit.
  pose proof (try_providers_keeps options (SimpleEmailService.providers s) m) as H.
  unfold SimpleEmailService.sendEmail. run. rewrite Hinit. simpl.
  destruct (SimpleEmailService.try_providers options (SimpleEmailService.providers s) m)
    as [[found ps'] m'].
  destruct H as (Hnames & Hprios & Hreadys & Hall).
  destruct found as [result|]; simpl; split_and!; eauto.
Qed.

(** X9.  [sendEmail] on an initialized orchestrator returns and keeps the
    adapter list: the same adapters, in the same order, each as ready as
    before.  An adapter that fails is neither removed nor moved back: the
    next [sendEmail] tries it first again. *)
Theorem sendEmail_keeps_adapter_list (s : SimpleEmailService.t E) options m :
  SimpleEmailService.initialized s = true ->
  let run := SimpleEmailService.sendEmail options s m in
  (exists result, run.1.1 = Ok result)
  /\ SimpleEmailService.getProviders run.1.2 = SimpleEmailService.getProviders s
  /\ map ready (SimpleEmailService.providers run.1.2)
     = map ready (SimpleEmailService.providers s)
  /\ SimpleEmailService.initialized run.1.2 = true
  /\ SimpleEmailService.config run.1.2 = SimpleEmailService.config s.
Proof.
  intros Hinit run. subst run.
  pose proof (sendEmail_initialized s options m Hinit) as H.
  destruct (SimpleEmailService.sendEmail options s m) as [[r s'] m'].
  destruct H as (Hr & Hi & Hc & Hn & _ & Hready & _). by split_and!.
Qed.

Lemma initialize_consistent (s : SimpleEmailService.t E) m :
  service_consistent s ->
  service_consistent (SimpleEmailService.initialize s m).1.2.
Proof.
  intros Hs.
  pose proof (initialize_outcome s m) as Hout.
  destruct (SimpleEmailService.initialized s) eqn:Hinit.
  { destruct (SimpleEmailService.initialize s m) as [[[[]|e] s'] m'].
    - destruct Hout as (_ & _ & _ & Hsame). by destruct (Hsame eq_refl) as [-> _].
    - destruct Hout as (_ & _ & ? & _). congruence. }
  unfold service_consistent in Hs. rewrite Hinit in Hs.
  destruct s as [ps init cfg]; simpl in *. subst ps init.
  pose proof (initialize_fresh cfg m) as Hfresh.
  change (SimpleEmailService.mk [] false cfg) with (SimpleEmailService.new (E:=E) cfg)
    in *.
  destruct (SimpleEmailService.initialize (SimpleEmailService.new cfg) m)
    as [[r s'] m']; cbn [fst snd].
  destruct Hfresh as (pushed & Hnames & _ & Hcase).
  destruct Hout as (_ & Hready & _).
  unfold service_consistent.
  destruct pushed as [|p0 pushed0].
  - by destruct Hcase as (_ & -> & ->).
  - destruct Hcase as (_ & Hsorted & ->). set (pushed := p0 :: pushed0) in *.
    rewrite Array_sort_by_priority in Hsorted.
    split_and!.
    + intros Hnil. rewrite Hnil in Hsorted. apply (f_equal length) in Hsorted.
      by rewrite (Permutation_length (Array_sort_Permutation sort_key pushed)) in Hsorted.
    + apply Hready. constructor.
    + rewrite Hsorted.
      eapply StronglySorted_weaken; [|apply (Array_sort_sorted sort_key)].
      intros a b. cbn beta. by rewrite !sort_key_priority.
    + unfold SimpleEmailService.getProviders.
      rewrite Hsorted, (Array_sort_Permutation sort_key pushed), Hnames.
      destruct (nodemailer_survives cfg m),
        (sendgrid_survives cfg (after_nodemailer cfg m)); simpl.
      * apply NoDup_cons. split; [|apply NoDup_singleton].
        intros Hin. apply list_elem_of_singleton in Hin. discriminate.
      * apply NoDup_singleton.
      * apply NoDup_singleton.
      * apply NoDup_nil_2.
Qed.

Lemma sendEmail_consistent (s : SimpleEmailService.t E) options m :
  service_consistent s ->
  service_consistent (SimpleEmailService.sendEmail options s m).1.2.
Proof.
  intros Hs.
  assert (forall (s1 : SimpleEmailService.t E) (m1 : Machine E),
            service_consistent s1 -> SimpleEmailService.initialized s1 = true ->
            service_consistent (SimpleEmailService.sendEmail options s1 m1).1.2)
    as Hready.
  { intros s1 m1 Hs1 Hinit1.
    pose proof (sendEmail_initialized s1 options m1 Hinit1) as H.
    destruct (SimpleEmailService.sendEmail options s1 m1) as [[r s'] m']; simpl.
    destruct H as (_ & Hi & _ & Hn & Hp & Hr & _).
    unfold service_consistent in *. rewrite Hinit1 in Hs1. rewrite Hi.
    destruct Hs1 as (Hne & Hall & Hsorted & Hdup).
    unfold SimpleEmailService.getProviders in *. split_and!.
    - intros Hnil. rewrite Hnil in Hn. destruct (SimpleEmailService.providers s1); done.
    - by eapply ready_by_map.
    - by eapply sorted_by_priority.
    - by rewrite Hn. }
  destruct (SimpleEmailService.initialized s) eqn:Hinit; [by apply Hready|].
  pose proof (initialize_consistent s m Hs) as Hcons.
  pose proof (initialize_outcome s m) as Hout.
  unfold SimpleEmailService.sendEmail at 1. unfold bind at 1 2. unfold read at 1.
  rewrite Hinit. cbn [negb].
  destruct (SimpleEmailService.initialize s m) as [[[[]|e] s1] m1]; simpl in Hcons |- *.
  - destruct Hout as (_ & _ & Hi1 & _).
    specialize (Hready s1 m1 Hcons Hi1).
    unfold SimpleEmailService.sendEmail in Hready. unfold bind at 1 2, read at 1 in Hready.
    rewrite Hi1 in Hready. exact Hready.
  - exact Hcons.
Qed.

Lemma loadTemplate_keeps (s : SimpleEmailService.t E) templateName data options m :
  let '(r, s', m') := SimpleEmailService.loadTemplate templateName data options s m in
  s' = s /\ calls m' = calls m /\ exists loaded, r = Ok loaded.
Proof.
  unfold SimpleEmailService.loadTemplate. run.
  repeat branch; simplify_eq /=; eauto.
Qed.

(** X10.  Of calls made one after the other on one orchestrator, each
    settled before the next starts (calls that overlap are not covered: the
    flag [initialized] is set after the awaits of [initialize], so two
    overlapping first calls both register the adapters).  A new orchestrator
    is consistent, and every session of [initialize], [sendEmail] and
    [sendTemplateEmail] calls, whatever their completions, leaves a
    consistent orchestrator consistent: before initialization the adapter
    list is empty; afterwards it is not empty, every adapter in it went
    through its [initialize], the list is in descending order of priority
    and names no adapter twice.  The orchestrator [createEmailService]
    returns is initialized and consistent. *)
Theorem service_stays_consistent :
  (forall config, service_consistent (SimpleEmailService.new (E:=E) config))
  /\ (forall (requests : list Request) (s : SimpleEmailService.t E) (m : Machine E),
        service_consistent s ->
        service_consistent (session requests s m).1)
  /\ (forall config (m : Machine E) s,
        (SimpleEmailService.createEmailService config m).1 = Ok s ->
        service_consistent s /\ SimpleEmailService.initialized s = true).
Proof.
  split_and!.
  - done.
  - intros requests. induction requests as [|request requests IH]; intros s m Hs.
    + exact Hs.
    + cbn [session]. apply IH.
      destruct request as [|options|templateName data options]; cbn [serve fst snd].
      * by apply initialize_consistent.
      * by apply sendEmail_consistent.
      * pose proof (loadTemplate_keeps s templateName data options m) as H.
        unfold SimpleEmailService.sendTemplateEmail, bind.
        destruct (SimpleEmailService.loadTemplate templateName data options s m)
          as [[r s'] m'].
        destruct H as (-> & _ & [message|failure] & ->).
        -- by apply sendEmail_consistent.
        -- done.
  - intros config m s. unfold SimpleEmailService.createEmailService.
    pose proof (initialize_consistent (SimpleEmailService.new config) m) as Hcons.
    pose proof (initialize_outcome (SimpleEmailService.new config) m) as Hout.
    destruct (SimpleEmailService.initialize (SimpleEmailService.new config) m)
      as [[[[]|e] s'] m']; simpl; intros Hs; simplify_eq.
    split; [by apply Hcons|]. by destruct Hout as (_ & _ & ? & _).
Qed.

(** X11.  On a consistent, initialized orchestrator no adapter throws from
    [sendEmail]: the [catch] of the failover loop is never taken (no warning
    is logged), and every adapter [sendEmail] tried has the attempt on
    record: the attempts recorded by the adapters grow by the number of
    calls made. *)
Theorem sendEmail_accounts_for_every_attempt (s : SimpleEmailService.t E) options m :
  service_consistent s ->
  SimpleEmailService.initialized s = true ->
  let run := SimpleEmailService.sendEmail options s m in
  warnings (logs run.2) = warnings (logs m)
  /\ exists tried : nat,
       length (calls run.2) = (length (calls m) + tried)%nat
       /\ (tried <= length (SimpleEmailService.providers s))%nat
       /\ total_attempts (SimpleEmailService.providers run.1.2)
          = total_attempts (SimpleEmailService.providers s) + Z.of_nat tried.
Proof.
  intros Hs Hinit run. subst run.
  pose proof (sendEmail_initialized s options m Hinit) as H.
  pose proof (try_providers_Failover options (SimpleEmailService.providers s) m) as Hf.
  unfold service_consistent in Hs. rewrite Hinit in Hs.
  destruct Hs as (_ & Hall & _).
  assert ((SimpleEmailService.sendEmail options s m).2
          = (SimpleEmailService.try_providers options
               (SimpleEmailService.providers s) m).2) as Hm.
  { unfold SimpleEmailService.sendEmail. run. rewrite Hinit. simpl.
    destruct (SimpleEmailService.try_providers _ _ _) as [[[r|] ps'] m']; done. }
  destruct (SimpleEmailService.sendEmail options s m) as [[r s'] m'] eqn:Hrun.
  simpl in Hm |- *.
  destruct H as (_ & _ & _ & _ & _ & _ & Hacc).
  destruct (Hacc Hall) as (Hwarn & tried & Hlen & Htotal).
  split; [done|]. exists tried. split_and!; auto.
  destruct (SimpleEmailService.try_providers options (SimpleEmailService.providers s) m)
    as [[found ps'] m2]. simpl in Hm. subst m2.
  destruct Hf as (tried' & _ & Hlog & Hprefix & _).
  apply prefix_length in Hprefix.
  rewrite Hlog, length_app in Hlen. unfold sends in Hlen. rewrite length_map in Hlen.
  lia.
Qed.

End OrchestratorProperties.

Section LazyInitialization.
Context {E : Collaborators}.

Lemma initialize_no_survivor (config : SimpleEmailConfig.t) (m : Machine E) :
  nodemailer_survives config m = false ->
  sendgrid_survives config (after_nodemailer config m) = false ->
  (SimpleEmailService.initialize (SimpleEmailService.new config) m).1
  = (Throw (mkError "No mail providers could be initialized"),
     SimpleEmailService.new config).
Proof.
  intros Hn Hs.
  pose proof (initialize_fresh config m) as H.
  destruct (SimpleEmailService.initialize (SimpleEmailService.new config) m)
    as [[r s'] m'].
  destruct H as (pushed & Hnames & Hconfig & Hcase).
  rewrite Hn, Hs in Hnames. destruct pushed; [|discriminate].
  destruct Hcase as (-> & Hps & Hinit).
  destruct s' as [ps init cfg]; simpl in *. by subst.
Qed.

(** X12.  [sendEmail] on an orchestrator that is not initialized runs
    [initialize] first.  When that completes, the message is sent by the
    orchestrator [initialize] left, which is initialized; when it throws,
    [sendEmail] throws the same error ([No mail providers could be
    initialized]), no adapter is asked to send, and the orchestrator stays
    uninitialized with an empty adapter list. *)
Theorem sendEmail_initializes_first (s : SimpleEmailService.t E) options m :
  SimpleEmailService.initialized s = false ->
  let init := SimpleEmailService.initialize s m in
  let run := SimpleEmailService.sendEmail options s m in
  match init.1.1 with
  | Ok _ =>
    SimpleEmailService.initialized init.1.2 = true
    /\ run = SimpleEmailService.sendEmail options init.1.2 init.2
  | Throw error =>
    error = mkError "No mail providers could be initialized"
    /\ run = (Throw error, init.1.2, init.2)
    /\ SimpleEmailService.initialized run.1.2 = false
    /\ SimpleEmailService.providers run.1.2 = []
  end.
Proof.
  intros Hinit init run. subst init run.
  pose proof (initialize_outcome s m) as Hout.
  destruct (SimpleEmailService.initialize s m) as [[[[]|e] s1] m1] eqn:Hrun;
    cbn [fst snd].
  - destruct Hout as (_ & _ & Hi1 & _). split; [done|].
    unfold SimpleEmailService.sendEmail, bind, read.
    rewrite Hinit, Hi1. cbn [negb]. rewrite Hrun. reflexivity.
  - destruct Hout as (_ & _ & _ & Hi1 & Hps & ->).
    assert (SimpleEmailService.sendEmail options s m
            = (Throw (mkError "No mail providers could be initialized"), s1, m1))
      as ->; [|by split_and!].
    unfold SimpleEmailService.sendEmail, bind, read.
    rewrite Hinit. cbn [negb]. by rewrite Hrun.
Qed.

(** X13.  When neither adapter survives its initialization, [sendEmail] on
    a new orchestrator throws [No mail providers could be initialized]
    instead of returning a result, and leaves the orchestrator as new: the
    next call starts the initialization again. *)
Theorem sendEmail_raises_when_no_adapter_initializes
  (config : SimpleEmailConfig.t) options (m : Machine E) :
  nodemailer_survives config m = false ->
  sendgrid_survives config (after_nodemailer config m) = false ->
  (SimpleEmailService.sendEmail options (SimpleEmailService.new config) m).1
  = (Throw (mkError "No mail providers could be initialized"),
     SimpleEmailService.new config).
Proof.
  intros Hn Hs.
  pose proof (initialize_no_survivor config m Hn Hs) as H.
  unfold SimpleEmailService.sendEmail. unfold bind at 1 2. unfold read at 1.
  cbn [SimpleEmailService.initialized SimpleEmailService.new negb].
  change (SimpleEmailService.mk [] false config) with (SimpleEmailService.new (E:=E) config).
  destruct (SimpleEmailService.initialize (SimpleEmailService.new config) m)
    as [[r s'] m']. simpl in H. by simplify_eq.
Qed.


End LazyInitialization.

(** ** The subject directive *)

Section SubjectDirective.
#[local] Arguments String.append !s1 s2 : simpl nomatch.

Lemma upper_S_not_space (a : ascii) : upper a = "S"%char -> is_space a = false.
Proof. destruct a as [[] [] [] [] [] [] [] []]; vm_compute; congruence. Qed.

Lemma space_not_dash (a : ascii) :
  is_space a = true -> class_matches (Lit "-") a = false.
Proof. destruct a as [[] [] [] [] [] [] [] []]; vm_compute; congruence. Qed.

Lemma not_gt_no_match (a : ascii) :
  (nat_of_ascii a =? 62)%nat = false -> class_matches (Lit ">") a = false.
Proof. destruct a as [[] [] [] [] [] [] [] []]; vm_compute; congruence. Qed.

Lemma not_lt_no_match (a : ascii) :
  Ascii.eqb a "<" = false -> class_matches (Lit "<") a = false.
Proof. destruct a as [[] [] [] [] [] [] [] []]; vm_compute; congruence. Qed.

Lemma append_snoc (taken : string) (a : ascii) (u : string) :
  (taken +:+ String a EmptyString) +:+ u = taken +:+ String a u.
Proof. induction taken as [|b taken IH]; simpl; [done|]. by rewrite IH. Qed.

Lemma match_literal (lit : string) :
  forall (kw : string) (rest : list Node) (group s : string),
    map upper (list_ascii_of_string kw) = map upper (list_ascii_of_string lit) ->
    match_nodes (literal lit ++ rest) group (kw +:+ s) = match_nodes rest group s.
Proof.
  induction lit as [|a lit IH]; intros [|b kw] rest group s Heq; try discriminate.
  - reflexivity.
  - injection Heq as Hb Hkw.
    change (match_nodes (literal (String a lit) ++ rest) group (String b kw +:+ s))
      with (if class_matches (Lit a) b
            then match_nodes (literal lit ++ rest) group (kw +:+ s) else None).
    cbn [class_matches]. rewrite Hb, Ascii.eqb_refl. by apply IH.
Qed.

Lemma closing_after_subject (group tail : string) :
  match_nodes closing group (" -->" +:+ tail) = Some group.
Proof. reflexivity. Qed.

Lemma match_char (c : CharClass) (rest : list Node) (group : string)
  (a : ascii) (s : string) :
  match_nodes (Char c :: rest) group (String a s)
  = if class_matches c a then match_nodes rest group s else None.
Proof. reflexivity. Qed.

Lemma star_one_space (rest : list Node) (group : string) (a : ascii)
  (s found : string) :
  is_space a = false ->
  match_nodes rest group (String a s) = Some found ->
  match_nodes ([Star Space] ++ rest) group (String " " (String a s)) = Some found.
Proof.
  intros Ha Hrest.
  change (match_nodes ([Star Space] ++ rest) group (String " " (String a s)))
    with (match (if is_space a
                 then match star_loop Space rest group s with
                      | Some g => Some g
                      | None => match_nodes rest group (String a s)
                      end
                 else match_nodes rest group (String a s)) with
          | Some g => Some g
          | None => match_nodes rest group (String " " (String a s))
          end).
  by rewrite Ha, Hrest.
Qed.

Lemma arrow_not_in_subject (group : string) (a : ascii) (u tail : string) :
  all_chars (fun c => negb (is_line_terminator c) && negb (nat_of_ascii c =? 62)%nat)
    (String a u) = true ->
  match_nodes (literal "-->") group (String a (u +:+ " -->" +:+ tail)) = None.
Proof.
  intros Hall.
  change (literal "-->") with [Char (Lit "-"); Char (Lit "-"); Char (Lit ">")].
  rewrite match_char. destruct (class_matches (Lit "-") a); [|done].
  destruct u as [|b u].
  { reflexivity. }
  change (String b u +:+ " -->" +:+ tail) with (String b (u +:+ " -->" +:+ tail)).
  rewrite match_char. destruct (class_matches (Lit "-") b); [|done].
  destruct u as [|c u].
  { reflexivity. }
  change (String c u +:+ " -->" +:+ tail) with (String c (u +:+ " -->" +:+ tail)).
  rewrite match_char, not_gt_no_match; [done|].
  cbn [all_chars] in Hall.
  apply andb_prop in Hall as [_ Hall]. apply andb_prop in Hall as [_ Hall].
  apply andb_prop in Hall as [Hc _]. apply andb_prop in Hc as [_ Hc].
  by apply negb_true_iff.
Qed.

Lemma closing_not_in_subject (group tail : string) (u : string) :
  u <> EmptyString ->
  all_chars (fun c => negb (is_line_terminator c) && negb (nat_of_ascii c =? 62)%nat)
    u = true ->
  last_char (fun c => negb (is_space c)) u = true ->
  star_loop Space (literal "-->") group (u +:+ " -->" +:+ tail) = None.
Proof.
  induction u as [|a u IH]; [done|]. intros _ Hall Hlast.
  pose proof (arrow_not_in_subject group a u tail Hall) as Harrow.
  change (star_loop Space (literal "-->") group (String a u +:+ " -->" +:+ tail))
    with (if class_matches Space a
          then match star_loop Space (literal "-->") group (u +:+ " -->" +:+ tail) with
               | Some g => Some g
               | None => match_nodes (literal "-->") group
                           (String a (u +:+ " -->" +:+ tail))
               end
          else match_nodes (literal "-->") group (String a (u +:+ " -->" +:+ tail))).
  rewrite Harrow.
  destruct (class_matches Space a) eqn:Hspace; [|done].
  rewrite IH; [done| | |].
  - intros ->. simpl in Hlast, Hspace. by rewrite Hspace in Hlast.
  - simpl in Hall. by apply andb_prop in Hall as [_ ?].
  - destruct u; [|done]. simpl in Hlast, Hspace. by rewrite Hspace in Hlast.
Qed.

Lemma lazy_group_takes_subject (tail : string) (u : string) :
  forall taken : string,
    u <> EmptyString ->
    all_chars (fun c => negb (is_line_terminator c) && negb (nat_of_ascii c =? 62)%nat)
      u = true ->
    last_char (fun c => negb (is_space c)) u = true ->
    lazy_loop AnyChar closing taken (u +:+ " -->" +:+ tail) = Some (taken +:+ u).
Proof.
  induction u as [|a u IH]; [done|]. intros taken _ Hall Hlast.
  change (lazy_loop AnyChar closing taken (String a u +:+ " -->" +:+ tail))
    with (if class_matches AnyChar a
          then match match_nodes closing (taken +:+ String a EmptyString)
                       (u +:+ " -->" +:+ tail) with
               | Some g => Some g
               | None => lazy_loop AnyChar closing (taken +:+ String a EmptyString)
                           (u +:+ " -->" +:+ tail)
               end
          else None).
  simpl in Hall. apply andb_prop in Hall as [Ha Hall].
  apply andb_prop in Ha as [Ha _]. cbn [class_matches]. rewrite Ha.
  destruct u as [|b u].
  - reflexivity.
  - change (match_nodes closing (taken +:+ String a EmptyString)
              (String b u +:+ " -->" +:+ tail))
      with (star_loop Space (literal "-->") (taken +:+ String a EmptyString)
              (String b u +:+ " -->" +:+ tail)).
    rewrite closing_not_in_subject; [|done|done|done].
    rewrite IH; [|done|done|done]. by rewrite append_snoc.
Qed.

Lemma spells_SUBJECT_chars (keyword : string) :
  spells_SUBJECT keyword = true ->
  map upper (list_ascii_of_string keyword)
  = map upper (list_ascii_of_string "SUBJECT:").
Proof.
  unfold spells_SUBJECT. intros H. apply String.eqb_eq in H.
  apply (f_equal list_ascii_of_string) in H.
  by rewrite list_ascii_of_string_of_list_ascii in H.
Qed.

Lemma String_match_head (s : string) (nodes : list Node) (found : string) :
  match_nodes nodes EmptyString s = Some found ->
  String_match s nodes = Some found.
Proof. intros H. destruct s; cbn [String_match]; by rewrite H. Qed.

Lemma String_match_directive (keyword subject tail : string) :
  spells_SUBJECT keyword = true ->
  plain_subject subject = true ->
  String_match ("<!-- " +:+ keyword +:+ " " +:+ subject +:+ " -->" +:+ tail)
    SUBJECT_pattern = Some subject.
Proof.
  intros Hkw Hsubject.
  pose proof (spells_SUBJECT_chars keyword Hkw) as Hchars.
  assert (match_nodes SUBJECT_pattern EmptyString
            ("<!-- " +:+ keyword +:+ " " +:+ subject +:+ " -->" +:+ tail)
          = Some subject) as Hmatch.
  { destruct keyword as [|k keyword]; [discriminate|].
    assert (is_space k = false) as Hk.
    { apply upper_S_not_space. by injection Hchars. }
    destruct subject as [|a subject]; [discriminate|].
    unfold plain_subject in Hsubject.
    apply andb_prop in Hsubject as [Hsubject Hlast].
    apply andb_prop in Hsubject as [Hsubject Hall].
    apply andb_prop in Hsubject as [Ha _]. apply negb_true_iff in Ha.
    pose proof (lazy_group_takes_subject tail (String a subject) EmptyString
                  ltac:(done) Hall Hlast) as Hgroup.
    unfold SUBJECT_pattern.
    change ("<!-- " +:+ String k keyword +:+ " " +:+ String a subject
            +:+ " -->" +:+ tail)
      with ("<!--" +:+ String " "
              (String k (keyword +:+ " " +:+ String a subject +:+ " -->" +:+ tail))).
    rewrite (match_literal "<!--" "<!--") by reflexivity.
    apply star_one_space; [exact Hk|].
    change (String k (keyword +:+ " " +:+ String a subject +:+ " -->" +:+ tail))
      with (String k keyword +:+ String " " (String a (subject +:+ " -->" +:+ tail))).
    rewrite (match_literal "SUBJECT:" (String k keyword)) by exact Hchars.
    apply star_one_space; [exact Ha|].
    exact Hgroup. }
  by apply String_match_head.
Qed.

Lemma not_bang_no_match (a : ascii) :
  Ascii.eqb a "!" = false -> class_matches (Lit "!") a = false.
Proof. destruct a as [[] [] [] [] [] [] [] []]; vm_compute; congruence. Qed.

Lemma no_match_at (a : ascii) (s : string) :
  Ascii.eqb a "<" && starts_with_bang s = false ->
  match_nodes SUBJECT_pattern EmptyString (String a s) = None.
Proof.
  intros H.
  change SUBJECT_pattern
    with (Char (Lit "<") :: Char (Lit "!") :: tail (tail SUBJECT_pattern)).
  rewrite match_char.
  destruct (Ascii.eqb a "<") eqn:Ha.
  - destruct s as [|b s]; [by destruct (class_matches _ a)|].
    simpl in H. rewrite match_char, (not_bang_no_match b H).
    by destruct (class_matches _ a).
  - by rewrite (not_lt_no_match a Ha).
Qed.

Lemma String_match_skip (head s : string) :
  no_comment_start head = true ->
  starts_with_bang s = false ->
  String_match (head +:+ s) SUBJECT_pattern = String_match s SUBJECT_pattern.
Proof.
  intros Hhead Hs. induction head as [|a head IH]; [done|].
  cbn [no_comment_start] in Hhead. apply andb_prop in Hhead as [Ha Hhead].
  apply negb_true_iff in Ha.
  change (String_match (String a head +:+ s) SUBJECT_pattern)
    with (match match_nodes SUBJECT_pattern EmptyString (String a (head +:+ s)) with
          | Some g => Some g
          | None => String_match (head +:+ s) SUBJECT_pattern
          end).
  rewrite no_match_at; [by apply IH|].
  destruct head as [|b head]; [|exact Ha].
  change (EmptyString +:+ s) with s. rewrite Hs. by destruct (Ascii.eqb a "<").
Qed.

Lemma String_match_no_comment (source : string) :
  no_comment_start source = true ->
  String_match source SUBJECT_pattern = None.
Proof.
  induction source as [|a source IH]; intros Hall; [done|].
  cbn [no_comment_start] in Hall. apply andb_prop in Hall as [Ha Hall].
  apply negb_true_iff in Ha.
  change (String_match (String a source) SUBJECT_pattern)
    with (match match_nodes SUBJECT_pattern EmptyString (String a source) with
          | Some g => Some g
          | None => String_match source SUBJECT_pattern
          end).
  rewrite (no_match_at a source Ha). by apply IH.
Qed.


Context {E : Collaborators}.

(** X15.  A subject directive is found wherever the file has it, provided
    no comment opens before it, and whatever the case of its keyword: for a
    file that reads [<!-- SUBJECT: text -->] at that place, [text] being a
    line of ASCII without [>] that neither starts nor ends with a blank,
    [sendTemplateEmail] sends the message whose subject is the rendering of
    exactly [text], the blanks around it dropped. *)
Theorem sendTemplateEmail_reads_directive
  (s : SimpleEmailService.t E) templateName data options (m : Machine E)
  (head keyword text tail : string) w' html subject :
  no_comment_start head = true ->
  spells_SUBJECT keyword = true ->
  plain_subject text = true ->
  readFileSync E
    (SimpleEmailService.templatePath (SimpleEmailService.config s) templateName)
    (ext m)
  = (Ok (head +:+ "<!-- " +:+ keyword +:+ " " +:+ text +:+ " -->" +:+ tail), w') ->
  compile E (head +:+ "<!-- " +:+ keyword +:+ " " +:+ text +:+ " -->" +:+ tail) data
  = Ok html ->
  compile E text data = Ok subject ->
  SimpleEmailService.sendTemplateEmail templateName data options s m
  = SimpleEmailService.sendEmail
      (SimpleEmailService.with_subject_html options subject html)
      s (mkMachine w' (calls m) (logs m)).
Proof.
  intros Hhead Hkeyword Htext Hread Hbody Hsubject.
  unfold SimpleEmailService.sendTemplateEmail, bind.
  erewrite loadTemplate_success; [reflexivity | exact Hread | exact Hbody |].
  rewrite String_match_skip, String_match_directive; done.
Qed.

(** X16.  A file in which no comment opens (it has no [<!]) carries no
    subject directive: [sendTemplateEmail] sends its rendering under the
    subject [Email Notification]. *)
Theorem sendTemplateEmail_default_subject
  (s : SimpleEmailService.t E) templateName data options (m : Machine E)
  (source : string) w' html :
  no_comment_start source = true ->
  readFileSync E
    (SimpleEmailService.templatePath (SimpleEmailService.config s) templateName)
    (ext m)
  = (Ok source, w') ->
  compile E source data = Ok html ->
  SimpleEmailService.sendTemplateEmail templateName data options s m
  = SimpleEmailService.sendEmail
      (SimpleEmailService.with_subject_html options "Email Notification" html)
      s (mkMachine w' (calls m) (logs m)).
Proof.
  intros Hsource Hread Hbody.
  unfold SimpleEmailService.sendTemplateEmail, bind.
  erewrite loadTemplate_success; [reflexivity | exact Hread | exact Hbody |].
  by rewrite String_match_no_comment.
Qed.

End SubjectDirective.

(** ** The further statements on the scripted world *)

Lemma metrics_stay_consistent_witness :
  metrics_consistent (provider_metrics (SendGrid (E:=Lab.collaborators) Lab.api_after_one_send))
  /\ metrics_consistent
       (provider_metrics
          (IMailProvider.sendEmail Lab.hello
             (SendGrid (E:=Lab.collaborators) Lab.api_after_one_send)
             (Lab.machine Lab.api_down)).1.2).
Proof.
  assert (metrics_consistent
            (provider_metrics (SendGrid (E:=Lab.collaborators) Lab.api_after_one_send)))
    as Hconsistent by (unfold metrics_consistent; simpl; lia).
  split; [exact Hconsistent|].
  destruct (metrics_stay_consistent (E:=Lab.collaborators)) as (_ & _ & _ & Hkeep).
  exact (proj1 (Hkeep (SendGrid Lab.api_after_one_send) (Lab.machine Lab.api_down)
                  Hconsistent) Lab.hello).
Defined.

Lemma api_verifyConnection_sends_to_itself_witness :
  SendGridProvider.isInitialized Lab.api_after_one_send = true
  /\ (SendGridProvider.verifyConnection (E:=Lab.collaborators) Lab.api_after_one_send
        (Lab.machine Lab.all_up)).1
     = (Ok true, Lab.api_after_one_send)
  /\ (SendGridProvider.verifyConnection (E:=Lab.collaborators) Lab.api_after_one_send
        (Lab.machine Lab.api_down)).1
     = (Ok false, Lab.api_after_one_send).
Proof.
  destruct (api_verifyConnection_sends_to_itself (E:=Lab.collaborators)
              Lab.api_after_one_send (Lab.machine Lab.all_up) _ eq_refl eq_refl)
    as (m1 & Hup & _).
  destruct (api_verifyConnection_sends_to_itself (E:=Lab.collaborators)
              Lab.api_after_one_send (Lab.machine Lab.api_down) _ eq_refl eq_refl)
    as (m2 & Hdown & _).
  split; [reflexivity|]. split.
  - exact (f_equal fst Hup).
  - exact (f_equal fst Hdown).
Defined.

Lemma api_shutdown_disables_witness :
  (SendGridProvider.shutdown (E:=Lab.collaborators) Lab.api_after_one_send
     (Lab.machine Lab.all_up)).1
  = (Ok tt, Lab.api_shut_down)
  /\ (SendGridProvider.sendEmail (E:=Lab.collaborators) Lab.hello Lab.api_shut_down
        (Lab.machine Lab.all_up)).1
     = (Throw (mkError "SendGrid provider not initialized"), Lab.api_shut_down).
Proof.
  split; [reflexivity|].
  exact (proj1 (proj2 (proj2 (proj2
           (api_shutdown_disables (E:=Lab.collaborators) Lab.api_after_one_send
              (Lab.machine Lab.all_up)))))
           Lab.hello (Lab.machine Lab.all_up)).
Defined.

Lemma smtp_sendBulkEmails_accounts_witness :
  NodemailerProvider.transporter Lab.smtp_ready <> None
  /\ exists results p' m',
       NodemailerProvider.sendBulkEmails (E:=Lab.collaborators) Lab.wait
         [Lab.hello; Lab.second] Lab.smtp_ready (Lab.machine Lab.all_up)
       = (Ok results, p', m')
       /\ Metrics.successCount (NodemailerProvider.metrics p')
          = Metrics.successCount (NodemailerProvider.metrics Lab.smtp_ready)
            + successes results
       /\ Metrics.errorCount (NodemailerProvider.metrics p')
          = Metrics.errorCount (NodemailerProvider.metrics Lab.smtp_ready)
            + failures results
       /\ successes results + failures results
          = Z.of_nat (length [Lab.hello; Lab.second]).
Proof.
  assert (NodemailerProvider.transporter Lab.smtp_ready <> None) as Hready
    by discriminate.
  split; [exact Hready|].
  exact (smtp_sendBulkEmails_accounts (E:=Lab.collaborators) Lab.wait
           [Lab.hello; Lab.second] Lab.smtp_ready (Lab.machine Lab.all_up) Hready).
Defined.

Lemma sendEmail_keeps_adapter_list_witness :
  SimpleEmailService.initialized (Lab.service Lab.smtp_preferred) = true
  /\ let run := SimpleEmailService.sendEmail Lab.hello (Lab.service Lab.smtp_preferred)
                  (Lab.machine Lab.smtp_refuses) in
     (exists result, run.1.1 = Ok result)
     /\ SimpleEmailService.getProviders run.1.2
        = SimpleEmailService.getProviders (Lab.service Lab.smtp_preferred)
     /\ map ready (SimpleEmailService.providers run.1.2)
        = map ready (SimpleEmailService.providers (Lab.service Lab.smtp_preferred))
     /\ SimpleEmailService.initialized run.1.2 = true
     /\ SimpleEmailService.config run.1.2
        = SimpleEmailService.config (Lab.service Lab.smtp_preferred).
Proof.
  split; [reflexivity|].
  exact (sendEmail_keeps_adapter_list (E:=Lab.collaborators)
           (Lab.service Lab.smtp_preferred) Lab.hello (Lab.machine Lab.smtp_refuses)
           eq_refl).
Defined.

Lemma service_stays_consistent_witness :
  service_consistent (SimpleEmailService.new (E:=Lab.collaborators) Lab.smtp_preferred)
  /\ service_consistent
       (session
          [RequestSendEmail Lab.hello;
           RequestSendTemplateEmail "welcome" Lab.ada (Lab.envelope "ada@lab");
           RequestInitialize;
           RequestSendEmail Lab.second]
          (SimpleEmailService.new (E:=Lab.collaborators) Lab.smtp_preferred)
          (Lab.machine Lab.smtp_refuses)).1.
Proof.
  destruct (service_stays_consistent (E:=Lab.collaborators)) as (Hnew & Hkeep & _).
  split; [exact (Hnew Lab.smtp_preferred)|].
  exact (Hkeep _ (SimpleEmailService.new Lab.smtp_preferred)
           (Lab.machine Lab.smtp_refuses) (Hnew Lab.smtp_preferred)).
Defined.

Lemma sendEmail_accounts_for_every_attempt_witness :
  service_consistent (Lab.service Lab.smtp_preferred)
  /\ SimpleEmailService.initialized (Lab.service Lab.smtp_preferred) = true
  /\ let run := SimpleEmailService.sendEmail Lab.hello (Lab.service Lab.smtp_preferred)
                  (Lab.machine Lab.smtp_refuses) in
     warnings (logs run.2) = warnings (logs (Lab.machine Lab.smtp_refuses))
     /\ exists tried : nat,
          length (calls run.2)
          = (length (calls (Lab.machine Lab.smtp_refuses)) + tried)%nat
          /\ (tried <= length (SimpleEmailService.providers
                                 (Lab.service Lab.smtp_preferred)))%nat
          /\ total_attempts (SimpleEmailService.providers run.1.2)
             = total_attempts (SimpleEmailService.providers
                                 (Lab.service Lab.smtp_preferred))
               + Z.of_nat tried.
Proof.
  pose (Hservice := initialize_consistent (E:=Lab.collaborators)
                      (SimpleEmailService.new Lab.smtp_preferred)
                      (Lab.machine Lab.all_up) eq_refl).
  split; [exact Hservice|]. split; [reflexivity|].
  exact (sendEmail_accounts_for_every_attempt (E:=Lab.collaborators)
           (Lab.service Lab.smtp_preferred) Lab.hello (Lab.machine Lab.smtp_refuses)
           Hservice eq_refl).
Defined.

Lemma sendEmail_initializes_first_witness :
  SimpleEmailService.initialized
    (SimpleEmailService.new (E:=Lab.collaborators) Lab.smtp_preferred) = false
  /\ let init := SimpleEmailService.initialize
                   (SimpleEmailService.new Lab.smtp_preferred)
                   (Lab.machine Lab.all_up) in
     let run := SimpleEmailService.sendEmail Lab.hello
                  (SimpleEmailService.new Lab.smtp_preferred)
                  (Lab.machine Lab.all_up) in
     SimpleEmailService.initialized init.1.2 = true
     /\ run = SimpleEmailService.sendEmail Lab.hello init.1.2 init.2.
Proof.
  split; [reflexivity|].
  exact (sendEmail_initializes_first (E:=Lab.collaborators)
           (SimpleEmailService.new Lab.smtp_preferred) Lab.hello
           (Lab.machine Lab.all_up) eq_refl).
Defined.

Lemma sendEmail_raises_when_no_adapter_initializes_witness :
  nodemailer_survives (E:=Lab.collaborators) Lab.smtp_preferred
    (Lab.machine Lab.all_down) = false
  /\ sendgrid_survives (E:=Lab.collaborators) Lab.smtp_preferred
       (after_nodemailer Lab.smtp_preferred (Lab.machine Lab.all_down)) = false
  /\ (SimpleEmailService.sendEmail Lab.hello
        (SimpleEmailService.new Lab.smtp_preferred) (Lab.machine Lab.all_down)).1
     = (Throw (mkError "No mail providers could be initialized"),
        SimpleEmailService.new Lab.smtp_preferred).
Proof.
  split; [reflexivity|]. split; [reflexivity|].
  exact (sendEmail_raises_when_no_adapter_initializes (E:=Lab.collaborators)
           Lab.smtp_preferred Lab.hello (Lab.machine Lab.all_down) eq_refl eq_refl).
Defined.


Lemma sendTemplateEmail_reads_directive_witness :
  no_comment_start EmptyString = true
  /\ spells_SUBJECT "SUBJECT:" = true
  /\ plain_subject "Hi {{name}}" = true
  /\ SimpleEmailService.sendTemplateEmail "welcome" Lab.ada (Lab.envelope "ada@lab")
       (Lab.service Lab.smtp_only) (Lab.machine Lab.all_up)
     = SimpleEmailService.sendEmail
         (SimpleEmailService.with_subject_html (Lab.envelope "ada@lab") "Hi Ada"
            ("<!-- SUBJECT: Hi Ada -->" +:+ Lab.LF +:+ "<p>Ada</p>"))
         (Lab.service Lab.smtp_only) (Lab.machine Lab.all_up).
Proof.
  split; [reflexivity|]. split; [reflexivity|]. split; [reflexivity|].
  exact (sendTemplateEmail_reads_directive (E:=Lab.collaborators)
           (Lab.service Lab.smtp_only) "welcome" Lab.ada (Lab.envelope "ada@lab")
           (Lab.machine Lab.all_up) EmptyString "SUBJECT:" "Hi {{name}}"
           (Lab.LF +:+ "<p>{{name}}</p>") Lab.all_up
           ("<!-- SUBJECT: Hi Ada -->" +:+ Lab.LF +:+ "<p>Ada</p>") "Hi Ada"
           eq_refl eq_refl eq_refl eq_refl eq_refl eq_refl).
Defined.

Lemma sendTemplateEmail_default_subject_witness :
  no_comment_start Lab.plain_html = true
  /\ SimpleEmailService.sendTemplateEmail "plain" Lab.ada (Lab.envelope "ada@lab")
       (Lab.service Lab.smtp_only) (Lab.machine Lab.all_up)
     = SimpleEmailService.sendEmail
         (SimpleEmailService.with_subject_html (Lab.envelope "ada@lab")
            "Email Notification" "<p>Ada</p>")
         (Lab.service Lab.smtp_only) (Lab.machine Lab.all_up).
Proof.
  split; [reflexivity|].
  exact (sendTemplateEmail_default_subject (E:=Lab.collaborators)
           (Lab.service Lab.smtp_only) "plain" Lab.ada (Lab.envelope "ada@lab")
           (Lab.machine Lab.all_up) Lab.plain_html Lab.all_up "<p>Ada</p>"
           eq_refl eq_refl eq_refl).
Defined.

Lemma getHealthStatus_reports_metrics_witness :
  metrics_consistent
    (provider_metrics (SendGrid (E:=Lab.collaborators) Lab.api_after_one_send))
  /\ exists status,
       (IMailProvider.getHealthStatus
          (SendGrid (E:=Lab.collaborators) Lab.api_after_one_send)
          (Lab.machine Lab.all_up)).1.1 = Ok status
       /\ (ProviderHealthStatus.successRate status == 100)%Q
       /\ ProviderHealthStatus.metrics status = HealthMetrics.mk 1 1 0.
Proof.
  assert (metrics_consistent
            (provider_metrics (SendGrid (E:=Lab.collaborators) Lab.api_after_one_send)))
    as Hconsistent by (unfold metrics_consistent; simpl; lia).
  split; [exact Hconsistent|].
  destruct (getHealthStatus_reports_metrics (E:=Lab.collaborators)
              (SendGrid Lab.api_after_one_send) (Lab.machine Lab.all_up) Hconsistent)
    as (status & Hstatus & _ & _ & Hall & _ & Hmetrics).
  exists status. split; [exact Hstatus|]. split; [|exact Hmetrics].
  apply Hall; reflexivity.
Defined.
